(** * Journal transactions of the bookkeeping server

    A shallow embedding of [server/src/handlers/transactions.ts] and
    [server/src/handlers/reports.ts] over a relational store that follows
    [server/src/db/schema.ts].

    Conventions of the embedding.
    - A table with a [serial] primary key is a finite map from the key to
      the row; the sequence behind the key is a counter of the store.
    - A JavaScript [number] is a binary64 float, and the arithmetic of the
      handlers is the arithmetic of binary64.
    - A [numeric(15,2)] column holds a whole number of hundredths.  Writing
      a number to such a column rounds its decimal text to two fraction
      digits, half away from zero, as PostgreSQL does; the statement fails
      when the number is infinite or the rounded value has more than
      thirteen digits before the point.  [NaN], which the schemas of the
      inputs refuse, is taken as a number the column cannot hold.
    - A [Date] is its time value, a number of milliseconds.  Keys, time
      values and sequence numbers are whole numbers that JavaScript holds
      exactly.
    - Every handler is a computation on the store that either returns or
      throws.  No handler opens a database transaction, so what a handler
      wrote before it throws stays written. *)

From Stdlib Require Import ZArith Floats Ascii String Lia.
From Stdlib Require OrderedTypeEx.
From stdpp Require Import gmap strings list fin_maps pretty sorting.

Local Open Scope Z_scope.

(** ** Amounts *)

Module Amount.

(** An integer as a binary float with the mantissa it has. *)
Definition of_Z (c : Z) : spec_float :=
  match c with
  | Z0 => S754_zero false
  | Zpos p => S754_finite false p 0
  | Zneg p => S754_finite true p 0
  end.

(** The double nearest to [n / d]: the number a decimal text stands for. *)
Definition ratio (n d : Z) : float :=
  SF2Prim (SFdiv prec emax (of_Z n) (of_Z d)).

(** [parseFloat] of the text a [numeric(15,2)] column gives back. *)
Definition parseFloat (c : Z) : float := ratio c 100.

(** The value a [numeric(15,2)] column keeps of [x.toString()], in
    hundredths.  [x] is [m * 2^e]; [k] is the whole part of [|x| * 100].
    The column rounds up from [k] when the rest is a half or more, and also
    when [x] prints as the decimal half-way between [k] and [k + 1]. *)
Definition to_numeric (x : float) : Z :=
  match Prim2SF x with
  | S754_finite s m e =>
      let scaled := 100 * Z.pos m in
      let k := Z.shiftl scaled e in
      let half_or_more :=
        if 0 <=? e then false
        else 2 ^ (- e) <=? 2 * (scaled `mod` 2 ^ (- e)) in
      let prints_as_tie :=
        PrimFloat.eqb (ratio (2 * k + 1) 200) (PrimFloat.abs x) in
      let c := if half_or_more || prints_as_tie then k + 1 else k in
      if s then - c else c
  | _ => 0
  end.

(** The column can hold [x]: [x] is finite and what the column keeps of it
    is below [10^13] in absolute value. *)
Definition fits (x : float) : bool :=
  match Prim2SF x with
  | S754_zero _ => true
  | S754_finite _ _ _ => Z.abs (to_numeric x) <? 10 ^ 15
  | _ => false
  end.

(** [x > y] and [x < y]. *)
Definition gtb (x y : float) : bool := PrimFloat.ltb y x.
Definition ltb (x y : float) : bool := PrimFloat.ltb x y.

(** [rows.reduce((sum, r) => sum + f(r), 0)]. *)
Definition reduce_sum {A} (f : A → float) (rows : list A) : float :=
  fold_left (λ sum r, PrimFloat.add sum (f r)) rows 0%float.

(** The literal [0.01] both balance checks compare with. *)
Definition tolerance : float := ratio 1 100.

(** [Math.abs(x - y)]. *)
Definition distance (x y : float) : float :=
  PrimFloat.abs (PrimFloat.sub x y).

End Amount.

(** ** Rows of the store *)

Inductive transaction_type :=
  | PENERIMAAN_DANA | PENGELUARAN_DANA | PEMINDAH_BUKUAN
  | JURNAL_UMUM | JURNAL_KOREKSI.

Inductive account_type := ASET | KEWAJIBAN | EKUITAS | PENDAPATAN | BEBAN.

#[global] Instance transaction_type_eq_dec : EqDecision transaction_type.
Proof. solve_decision. Defined.

#[global] Instance account_type_eq_dec : EqDecision account_type.
Proof. solve_decision. Defined.

(** A row of [accounts]; [acc_saldo_awal] is a [numeric(15,2)]. *)
Record Account := mkAccount {
  acc_kode : string;
  acc_nama : string;
  acc_tipe : account_type;
  acc_saldo_awal : Z;
  acc_is_active : bool
}.

(** A row of [transaction_headers], without its key. *)
Record Header := mkHeader {
  hdr_nomor_transaksi : string;
  hdr_tanggal : Z;
  hdr_tipe : transaction_type;
  hdr_deskripsi : string;
  hdr_total_debit : Z;
  hdr_total_kredit : Z;
  hdr_relation_id : option Z;
  hdr_user_id : Z;
  hdr_is_posted : bool;
  hdr_created_at : Z;
  hdr_updated_at : Z
}.

(** A row of [transaction_details], without its key. *)
Record Detail := mkDetail {
  det_header_id : Z;
  det_account_id : Z;
  det_deskripsi : string;
  det_debit : Z;
  det_kredit : Z;
  det_urutan : Z;
  det_created_at : Z
}.

(** The store.  Of [users] and [relations] the handlers below only ask
    whether a key exists. *)
Record db := mkDb {
  users : gset Z;
  relations : gset Z;
  accounts : gmap Z Account;
  headers : gmap Z Header;
  details : gmap Z Detail;
  next_header_id : Z;
  next_detail_id : Z
}.

Definition with_headers (hs : gmap Z Header) (s : db) : db :=
  mkDb (users s) (relations s) (accounts s) hs (details s)
       (next_header_id s) (next_detail_id s).

Definition with_details (ds : gmap Z Detail) (s : db) : db :=
  mkDb (users s) (relations s) (accounts s) (headers s) ds
       (next_header_id s) (next_detail_id s).

(** ** Inputs of the handlers (schema.ts) *)

Record CreateTransactionHeaderInput := mkHeaderInput {
  in_nomor_transaksi : string;
  in_tanggal : Z;
  in_tipe : transaction_type;
  in_deskripsi : string;
  in_relation_id : option Z;
  in_user_id : Z
}.

Record CreateTransactionDetailInput := mkDetailInput {
  in_header_id : Z;
  in_account_id : Z;
  in_detail_deskripsi : string;
  in_debit : float;
  in_kredit : float;
  in_urutan : Z
}.

Record CreateCompleteTransactionInput := mkCompleteInput {
  in_header : CreateTransactionHeaderInput;
  in_details : list CreateTransactionDetailInput
}.

(** [Partial<...>]: a field that is [undefined] is [None]. *)
Record PartialHeaderInput := mkPartialHeader {
  upd_nomor_transaksi : option string;
  upd_tanggal : option Z;
  upd_tipe : option transaction_type;
  upd_deskripsi : option string;
  upd_relation_id : option (option Z);
  upd_user_id : option Z
}.

Record PartialDetailInput := mkPartialDetail {
  upd_header_id : option Z;
  upd_account_id : option Z;
  upd_detail_deskripsi : option string;
  upd_debit : option float;
  upd_kredit : option float;
  upd_urutan : option Z
}.

(** [if (x)] on a number that may be [null] or [undefined]. *)
Definition truthy (x : option Z) : bool :=
  match x with
  | Some n => negb (n =? 0)
  | None => false
  end.

(** ** Computations that may throw *)

Inductive error :=
  | Total_debit_must_equal_total_kredit
  | User_not_found
  | Relation_not_found
  | Account_with_ID_not_found (account_id : Z)
  | Transaction_header_not_found
  | Cannot_add_detail_to_posted_transaction
  | Account_not_found
  | Transaction_not_found
  | Cannot_update_posted_transaction
  | Transaction_detail_not_found
  | Cannot_update_detail_of_posted_transaction
  | Transaction_is_not_balanced
  | Cannot_delete_detail_from_posted_transaction
  | Cannot_delete_posted_transaction
  | Unique_violation_nomor_transaksi
  | Numeric_field_overflow
  | Values_must_be_called_with_at_least_one_value
  | No_values_to_set
  | TypeError_undefined.

Inductive result (A : Type) :=
  | Returns (a : A)
  | Throws (e : error).
Arguments Returns {A} a.
Arguments Throws {A} e.

Definition M (A : Type) : Type := db → result A * db.

Definition ret {A} (a : A) : M A := λ s, (Returns a, s).
Definition throw {A} (e : error) : M A := λ s, (Throws e, s).
Definition bind {A B} (m : M A) (k : A → M B) : M B :=
  λ s, match m s with
       | (Returns a, s') => k a s'
       | (Throws e, s') => (Throws e, s')
       end.
Definition get : M db := λ s, (Returns s, s).
Definition put (s' : db) : M unit := λ _, (Returns tt, s').

Notation "'do' x <- m ; k" := (bind m (λ x, k))
  (at level 10, x name, m at level 100, k at level 200).
Notation "m ;; k" := (bind m (λ _, k))
  (at level 100, k at level 200, right associativity).

(** [if (c) throw e]. *)
Definition throw_if (c : bool) (e : error) : M unit :=
  if c then throw e else ret tt.

(** The state a computation leaves and what it gives. *)
Definition outcome {A} (m : M A) (s : db) : result A := (m s).1.
Definition after {A} (m : M A) (s : db) : db := (m s).2.

(** ** Statements of the query builder *)

(** [select().from(transaction_details).where(eq(header_id, headerId))]. *)
Definition details_of (s : db) (headerId : Z) : list (Z * Detail) :=
  map_to_list
    (filter (λ r : Z * Detail, det_header_id r.2 = headerId) (details s)).

(** The numbers a statement writes to [numeric(15,2)] columns: the
    statement fails when a column cannot hold one of them. *)
Definition numeric_columns (values : list float) : M unit :=
  throw_if (negb (forallb Amount.fits values)) Numeric_field_overflow.

(** [nomor_transaksi] is declared [unique()]. *)
Definition nomor_in_use (s : db) (nomor : string) : bool :=
  bool_decide (map_Exists (λ _ h, hdr_nomor_transaksi h = nomor) (headers s)).

(** [insert(transaction_headers).values(row).returning()]: the key comes
    from the sequence. *)
Definition insert_header (row : Header) : M (Z * Header) :=
  do s <- get;
  throw_if (nomor_in_use s (hdr_nomor_transaksi row))
    Unique_violation_nomor_transaksi;;
  let id := next_header_id s in
  put (mkDb (users s) (relations s) (accounts s)
            (<[id := row]> (headers s)) (details s)
            (id + 1) (next_detail_id s));;
  ret (id, row).

(** [insert(transaction_details).values(row).returning()] for one row. *)
Definition insert_detail (row : Detail) : M (Z * Detail) :=
  do s <- get;
  let id := next_detail_id s in
  put (mkDb (users s) (relations s) (accounts s)
            (headers s) (<[id := row]> (details s))
            (next_header_id s) (id + 1));;
  ret (id, row).

Fixpoint insert_detail_rows (rows : list Detail) : M (list (Z * Detail)) :=
  match rows with
  | [] => ret []
  | row :: rows =>
      do r <- insert_detail row;
      do rs <- insert_detail_rows rows;
      ret (r :: rs)
  end.

(** [insert(transaction_details).values(rows).returning()] for an array of
    rows: the query builder throws on an empty array. *)
Definition insert_details (rows : list Detail) : M (list (Z * Detail)) :=
  match rows with
  | [] => throw Values_must_be_called_with_at_least_one_value
  | _ => insert_detail_rows rows
  end.

(** [update(transaction_headers).set(..).where(eq(id, id)).returning()];
    [f] gives the row as the [set] changes it. *)
Definition update_header (id : Z) (f : Header → Header)
  : M (list (Z * Header)) :=
  do s <- get;
  match headers s !! id with
  | None => ret []
  | Some h =>
      let h' := f h in
      throw_if
        (negb (String.eqb (hdr_nomor_transaksi h') (hdr_nomor_transaksi h))
         && nomor_in_use s (hdr_nomor_transaksi h'))
        Unique_violation_nomor_transaksi;;
      put (with_headers (<[id := h']> (headers s)) s);;
      ret [(id, h')]
  end.

(** The object [updateData] of [updateTransactionDetail] holds no key. *)
Definition no_values (input : PartialDetailInput) : bool :=
  match upd_account_id input, upd_detail_deskripsi input,
        upd_debit input, upd_kredit input, upd_urutan input with
  | None, None, None, None, None => true
  | _, _, _, _, _ => false
  end.

Definition set_detail (input : PartialDetailInput) (d : Detail) : Detail :=
  mkDetail (det_header_id d)
           (default (det_account_id d) (upd_account_id input))
           (default (det_deskripsi d) (upd_detail_deskripsi input))
           (default (det_debit d) (Amount.to_numeric <$> upd_debit input))
           (default (det_kredit d) (Amount.to_numeric <$> upd_kredit input))
           (default (det_urutan d) (upd_urutan input))
           (det_created_at d).

(** [update(transaction_details).set(updateData).where(eq(id, id))
    .returning()]: the query builder throws when [updateData] is empty. *)
Definition update_detail (id : Z) (input : PartialDetailInput)
  : M (list (Z * Detail)) :=
  throw_if (no_values input) No_values_to_set;;
  numeric_columns
    (option_list (upd_debit input) ++ option_list (upd_kredit input));;
  do s <- get;
  match details s !! id with
  | None => ret []
  | Some d =>
      put (with_details (<[id := set_detail input d]> (details s)) s);;
      ret [(id, set_detail input d)]
  end.

(** [delete(transaction_details).where(eq(id, id))]. *)
Definition delete_detail (id : Z) : M unit :=
  do s <- get;
  put (with_details (delete id (details s)) s).

(** [delete(transaction_details).where(eq(header_id, headerId))]. *)
Definition delete_details_of (headerId : Z) : M unit :=
  do s <- get;
  put (with_details
         (filter (λ r, det_header_id r.2 ≠ headerId) (details s)) s).

(** [delete(transaction_headers).where(eq(id, id))]. *)
Definition delete_header (id : Z) : M unit :=
  do s <- get;
  put (with_headers (delete id (headers s)) s).

(** ** handlers/transactions.ts *)

(** Validate transaction balance (debits = credits). *)
Definition validateTransactionBalance (headerId : Z) : M bool :=
  do s <- get;
  let details := details_of s headerId in
  let totalDebit :=
    Amount.reduce_sum (λ detail, Amount.parseFloat (det_debit detail.2))
                      details in
  let totalKredit :=
    Amount.reduce_sum (λ detail, Amount.parseFloat (det_kredit detail.2))
                      details in
  ret (Amount.ltb (Amount.distance totalDebit totalKredit) Amount.tolerance).

(** Helper function to update header totals. *)
Definition updateHeaderTotals (now : Z) (headerId : Z) : M unit :=
  do s <- get;
  let details := details_of s headerId in
  let totalDebit :=
    Amount.reduce_sum (λ detail, Amount.parseFloat (det_debit detail.2))
                      details in
  let totalKredit :=
    Amount.reduce_sum (λ detail, Amount.parseFloat (det_kredit detail.2))
                      details in
  numeric_columns [totalDebit; totalKredit];;
  update_header headerId (λ h,
    mkHeader (hdr_nomor_transaksi h) (hdr_tanggal h) (hdr_tipe h)
             (hdr_deskripsi h)
             (Amount.to_numeric totalDebit) (Amount.to_numeric totalKredit)
             (hdr_relation_id h) (hdr_user_id h) (hdr_is_posted h)
             (hdr_created_at h) now);;
  ret tt.

(** Verify all accounts exist. *)
Fixpoint verify_accounts (ds : list CreateTransactionDetailInput) : M unit :=
  match ds with
  | [] => ret tt
  | detail :: ds =>
      do s <- get;
      throw_if (bool_decide (accounts s !! in_account_id detail = None))
        (Account_with_ID_not_found (in_account_id detail));;
      verify_accounts ds
  end.

(** Verify that relation exists if provided. *)
Definition verify_relation (relation_id : option Z) : M unit :=
  do s <- get;
  match relation_id with
  | Some r =>
      if truthy relation_id
      then throw_if (bool_decide (r ∉ relations s)) Relation_not_found
      else ret tt
  | None => ret tt
  end.

(** Create complete transaction (header + details in one operation). *)
Definition createCompleteTransaction (now : Z)
    (input : CreateCompleteTransactionInput)
  : M ((Z * Header) * list (Z * Detail)) :=
  let totalDebit := Amount.reduce_sum in_debit (in_details input) in
  let totalKredit := Amount.reduce_sum in_kredit (in_details input) in
  throw_if (Amount.gtb (Amount.distance totalDebit totalKredit)
                       Amount.tolerance)
    Total_debit_must_equal_total_kredit;;
  do s <- get;
  throw_if (bool_decide (in_user_id (in_header input) ∉ users s))
    User_not_found;;
  verify_relation (in_relation_id (in_header input));;
  verify_accounts (in_details input);;
  numeric_columns [totalDebit; totalKredit];;
  do createdHeader <-
    insert_header
      (mkHeader (in_nomor_transaksi (in_header input))
                (in_tanggal (in_header input))
                (in_tipe (in_header input))
                (in_deskripsi (in_header input))
                (Amount.to_numeric totalDebit)
                (Amount.to_numeric totalKredit)
                (in_relation_id (in_header input))
                (in_user_id (in_header input))
                false now now);
  numeric_columns
    (flat_map (λ detail, [in_debit detail; in_kredit detail])
              (in_details input));;
  do detailResults <-
    insert_details
      (map (λ detail,
              mkDetail createdHeader.1
                       (in_account_id detail)
                       (in_detail_deskripsi detail)
                       (Amount.to_numeric (in_debit detail))
                       (Amount.to_numeric (in_kredit detail))
                       (in_urutan detail)
                       now)
           (in_details input));
  ret (createdHeader, detailResults).

(** Create transaction header only. *)
Definition createTransactionHeader (now : Z)
    (input : CreateTransactionHeaderInput) : M (Z * Header) :=
  do s <- get;
  throw_if (bool_decide (in_user_id input ∉ users s)) User_not_found;;
  verify_relation (in_relation_id input);;
  insert_header
    (mkHeader (in_nomor_transaksi input) (in_tanggal input) (in_tipe input)
              (in_deskripsi input) 0 0
              (in_relation_id input) (in_user_id input)
              false now now).

(** Add transaction detail to existing header. *)
Definition addTransactionDetail (now : Z)
    (input : CreateTransactionDetailInput) : M (Z * Detail) :=
  do s <- get;
  match headers s !! in_header_id input with
  | None => throw Transaction_header_not_found
  | Some headerExists =>
      throw_if (hdr_is_posted headerExists)
        Cannot_add_detail_to_posted_transaction;;
      throw_if (bool_decide (accounts s !! in_account_id input = None))
        Account_not_found;;
      numeric_columns [in_debit input; in_kredit input];;
      do created <-
        insert_detail
          (mkDetail (in_header_id input) (in_account_id input)
                    (in_detail_deskripsi input)
                    (Amount.to_numeric (in_debit input))
                    (Amount.to_numeric (in_kredit input))
                    (in_urutan input) now);
      updateHeaderTotals now (in_header_id input);;
      ret created
  end.

(** The row as [updateData] of [updateTransactionHeader] changes it. *)
Definition set_header (now : Z) (input : PartialHeaderInput) (h : Header)
  : Header :=
  mkHeader (default (hdr_nomor_transaksi h) (upd_nomor_transaksi input))
           (default (hdr_tanggal h) (upd_tanggal input))
           (default (hdr_tipe h) (upd_tipe input))
           (default (hdr_deskripsi h) (upd_deskripsi input))
           (hdr_total_debit h) (hdr_total_kredit h)
           (default (hdr_relation_id h) (upd_relation_id input))
           (default (hdr_user_id h) (upd_user_id input))
           (hdr_is_posted h) (hdr_created_at h) now.

(** Update transaction header. *)
Definition updateTransactionHeader (now : Z) (id : Z)
    (input : PartialHeaderInput) : M (Z * Header) :=
  do s <- get;
  match headers s !! id with
  | None => throw Transaction_not_found
  | Some existing =>
      throw_if (hdr_is_posted existing) Cannot_update_posted_transaction;;
      (if truthy (upd_user_id input)
       then throw_if
              (bool_decide (default 0 (upd_user_id input) ∉ users s))
              User_not_found
       else ret tt);;
      verify_relation (default None (upd_relation_id input));;
      do result <- update_header id (set_header now input);
      match result with
      | updated :: _ => ret updated
      | [] => throw TypeError_undefined
      end
  end.

(** Update transaction detail. *)
Definition updateTransactionDetail (now : Z) (id : Z)
    (input : PartialDetailInput) : M (Z * Detail) :=
  do s <- get;
  match details s !! id with
  | None => throw Transaction_detail_not_found
  | Some existing_detail =>
      match headers s !! det_header_id existing_detail with
      | None => throw Transaction_detail_not_found
      | Some existing_header =>
          throw_if (hdr_is_posted existing_header)
            Cannot_update_detail_of_posted_transaction;;
          (if truthy (upd_account_id input)
           then throw_if
                  (bool_decide
                     (accounts s !! default 0 (upd_account_id input) = None))
                  Account_not_found
           else ret tt);;
          do result <- update_detail id input;
          let headerId := det_header_id existing_detail in
          updateHeaderTotals now headerId;;
          match result with
          | updated :: _ => ret updated
          | [] => throw TypeError_undefined
          end
      end
  end.

Definition set_posted (now : Z) (posted : bool) (h : Header) : Header :=
  mkHeader (hdr_nomor_transaksi h) (hdr_tanggal h) (hdr_tipe h)
           (hdr_deskripsi h) (hdr_total_debit h) (hdr_total_kredit h)
           (hdr_relation_id h) (hdr_user_id h) posted
           (hdr_created_at h) now.

(** Post transaction (mark as final). *)
Definition postTransaction (now : Z) (id : Z) : M (Z * Header) :=
  do isBalanced <- validateTransactionBalance id;
  throw_if (negb isBalanced) Transaction_is_not_balanced;;
  do result <- update_header id (set_posted now true);
  match result with
  | [] => throw Transaction_not_found
  | updated :: _ => ret updated
  end.

(** Unpost transaction (if corrections are needed). *)
Definition unpostTransaction (now : Z) (id : Z) : M (Z * Header) :=
  do result <- update_header id (set_posted now false);
  match result with
  | [] => throw Transaction_not_found
  | updated :: _ => ret updated
  end.

(** Delete transaction detail. *)
Definition deleteTransactionDetail (now : Z) (id : Z) : M bool :=
  do s <- get;
  match details s !! id with
  | None => throw Transaction_detail_not_found
  | Some existing_detail =>
      match headers s !! det_header_id existing_detail with
      | None => throw Transaction_detail_not_found
      | Some existing_header =>
          throw_if (hdr_is_posted existing_header)
            Cannot_delete_detail_from_posted_transaction;;
          let headerId := det_header_id existing_detail in
          delete_detail id;;
          updateHeaderTotals now headerId;;
          ret true
      end
  end.

(** Delete complete transaction. *)
Definition deleteTransaction (id : Z) : M bool :=
  do s <- get;
  match headers s !! id with
  | None => throw Transaction_not_found
  | Some existing =>
      throw_if (hdr_is_posted existing) Cannot_delete_posted_transaction;;
      delete_details_of id;;
      delete_header id;;
      ret true
  end.

(** ** Transaction numbers *)

(** The name of a transaction type, as the enum of the schema spells it. *)
Definition tipe_name (tipe : transaction_type) : string :=
  match tipe with
  | PENERIMAAN_DANA => "PENERIMAAN_DANA"
  | PENGELUARAN_DANA => "PENGELUARAN_DANA"
  | PEMINDAH_BUKUAN => "PEMINDAH_BUKUAN"
  | JURNAL_UMUM => "JURNAL_UMUM"
  | JURNAL_KOREKSI => "JURNAL_KOREKSI"
  end.

(** [n.toString()] of an integer. *)
Definition toString (n : Z) : string := pretty n.

(** [s.padStart(n, c)] for a pad of one character. *)
Definition padStart (n : nat) (c : ascii) (s : string) : string :=
  String.app (string_of_list_ascii (replicate (n - String.length s) c)) s.

(** [\d]. *)
Definition is_digit (c : ascii) : bool :=
  (48 <=? nat_of_ascii c)%nat && (nat_of_ascii c <=? 57)%nat.

(** [parseInt] of a run of digits, as long as the number is one that
    JavaScript holds exactly. *)
Definition parseInt (ds : list ascii) : Z :=
  fold_left (λ n c, n * 10 + (Z.of_nat (nat_of_ascii c) - 48)) ds 0.

(** The digits at the end of a text, and what is before them, both from the
    end backwards. *)
Fixpoint span_digits (rev_chars : list ascii) : list ascii * list ascii :=
  match rev_chars with
  | c :: rest =>
      if is_digit c
      then let (ds, before) := span_digits rest in (c :: ds, before)
      else ([], rev_chars)
  | [] => ([], [])
  end.

(** [nomor.match(/-(\d+)$/)] followed by [parseInt(match[1])]: the digits
    that end the text, when there are some and a hyphen is before them. *)
Definition match_sequence (nomor : string) : option Z :=
  match span_digits (rev (list_ascii_of_string nomor)) with
  | ((_ :: _) as ds, "-"%char :: _) => Some (parseInt (rev ds))
  | _ => None
  end.

(** The sequence number that ends the transaction number of a header, when
    there is one, is below [2^53]: [parseInt], [Math.max] and the addition
    of 1 are exact on it, and [toString] gives its digits. *)
Definition safe_sequence (h : Header) : Prop :=
  match match_sequence (hdr_nomor_transaksi h) with
  | Some n => n + 1 < 2 ^ 53
  | None => True
  end.

#[global] Instance safe_sequence_dec h : Decision (safe_sequence h).
Proof. unfold safe_sequence. destruct (match_sequence _); apply _. Defined.

Definition safe_sequences (s : db) : Prop :=
  map_Forall (λ _ h, safe_sequence h) (headers s).

Section calendar.

(** [Date.prototype.getFullYear] and [getMonth] (0 for January), of the
    time zone the server runs in. *)
Variable getFullYear : Z → Z.
Variable getMonth : Z → Z.

(** The headers [generateTransactionNumber] keeps: of the type, and of the
    year and month of [tanggal]. *)
Definition sameMonthTransactions (s : db) (tipe : transaction_type)
    (tanggal : Z) : list (Z * Header) :=
  let existing :=
    map_to_list
      (filter (λ r : Z * Header, hdr_tipe r.2 = tipe) (headers s)) in
  filter
    (λ t : Z * Header,
       getFullYear (hdr_tanggal t.2) = getFullYear tanggal ∧
       getMonth (hdr_tanggal t.2) = getMonth tanggal)
    existing.

(** Generate next transaction number.  [tipe] is written to a query on the
    enum column, so it is one of the transaction types. *)
Definition generateTransactionNumber (tipe : transaction_type) (tanggal : Z)
  : M string :=
  let year := getFullYear tanggal in
  let month := padStart 2 "0" (toString (getMonth tanggal + 1)) in
  let prefix := tipe_name tipe +:+ "-" +:+ toString year +:+ month in
  do s <- get;
  let maxSequence :=
    fold_left
      (λ maxSequence (t : Z * Header),
         match match_sequence (hdr_nomor_transaksi t.2) with
         | Some sequence => Z.max maxSequence sequence
         | None => maxSequence
         end)
      (sameMonthTransactions s tipe tanggal) 0 in
  let nextSequence := padStart 3 "0" (toString (maxSequence + 1)) in
  ret (prefix +:+ "-" +:+ nextSequence).

(** A header of the type, dated in the year and month of [tanggal]. *)
Definition in_month_of (tipe : transaction_type) (tanggal : Z) (h : Header)
  : Prop :=
  hdr_tipe h = tipe ∧
  getFullYear (hdr_tanggal h) = getFullYear tanggal ∧
  getMonth (hdr_tanggal h) = getMonth tanggal.

(** [m] is the largest sequence number that ends the transaction number of
    such a header, and 0 when no such header has one. *)
Definition largest_sequence (s : db) (tipe : transaction_type) (tanggal : Z)
    (m : Z) : Prop :=
  (∀ id h n,
     headers s !! id = Some h → in_month_of tipe tanggal h →
     match_sequence (hdr_nomor_transaksi h) = Some n → n ≤ m) ∧
  (m = 0 ∨
   ∃ id h,
     headers s !! id = Some h ∧ in_month_of tipe tanggal h ∧
     match_sequence (hdr_nomor_transaksi h) = Some m).

End calendar.

(** ** handlers/reports.ts *)

Record ReportFilter := mkFilter {
  dari_tanggal : Z;
  sampai_tanggal : Z;
  filter_account_id : option Z;
  filter_relation_id : option Z
}.

(** A row of a report; its amounts are JavaScript numbers. *)
Record Balance := mkBalance {
  account_id : Z;
  account_kode : string;
  account_nama : string;
  account_tipe : account_type;
  saldo_awal : float;
  debit : float;
  kredit : float;
  saldo_akhir : float
}.

(** [typeOrder[tipe] || 4]. *)
Definition typeOrder (tipe : account_type) : Z :=
  match tipe with
  | ASET => 1
  | KEWAJIBAN => 2
  | EKUITAS => 3
  | _ => 4
  end.

(** [rows.sort(compare)]: the sort is stable. *)
Fixpoint sort_insert {A} (compare : A → A → Z) (x : A) (sorted : list A)
  : list A :=
  match sorted with
  | [] => [x]
  | y :: rest =>
      if compare x y <=? 0 then x :: sorted
      else y :: sort_insert compare x rest
  end.

Definition sort {A} (compare : A → A → Z) (rows : list A) : list A :=
  foldr (sort_insert compare) [] rows.

(** A detail row has a header, and the header is dated [sampai] or before:
    what [innerJoin(transactionHeadersTable, eq(header_id, id))] keeps under
    [lte(tanggal, sampai)]. *)
Definition dated_up_to (s : db) (sampai : Z) (d : Detail) : Prop :=
  match headers s !! det_header_id d with
  | Some h => hdr_tanggal h ≤ sampai
  | None => False
  end.

#[global] Instance dated_up_to_dec s sampai d :
  Decision (dated_up_to s sampai d).
Proof. unfold dated_up_to. destruct (headers s !! _); apply _. Defined.

(** The detail rows of an account joined with their headers, up to a
    date. *)
Definition accountTransactions (s : db) (accountId : Z) (sampai : Z)
  : list (Z * Detail) :=
  map_to_list
    (filter
       (λ r : Z * Detail,
          det_account_id r.2 = accountId ∧ dated_up_to s sampai r.2)
       (details s)).

Section reports.

(** [String.prototype.localeCompare]. *)
Variable localeCompare : string → string → Z.

(** The comparison [getFinancialPositionReport] sorts with. *)
Definition compare_balance (a b : Balance) : Z :=
  let aOrder := typeOrder (account_tipe a) in
  let bOrder := typeOrder (account_tipe b) in
  if negb (aOrder =? bOrder) then aOrder - bOrder
  else localeCompare (account_kode a) (account_kode b).

(** The row of one account. *)
Definition balance_of (s : db) (filter : ReportFilter) (account : Z * Account)
  : Balance :=
  let accountTransactions :=
    accountTransactions s account.1 (sampai_tanggal filter) in
  let totalDebit :=
    Amount.reduce_sum (λ tx : Z * Detail, Amount.parseFloat (det_debit tx.2))
                      accountTransactions in
  let totalKredit :=
    Amount.reduce_sum (λ tx : Z * Detail, Amount.parseFloat (det_kredit tx.2))
                      accountTransactions in
  let saldoAwal := Amount.parseFloat (acc_saldo_awal account.2) in
  let saldoAkhir :=
    match acc_tipe account.2 with
    | ASET => saldoAwal + totalDebit - totalKredit
    | KEWAJIBAN | EKUITAS => saldoAwal + totalKredit - totalDebit
    | _ => saldoAwal + totalDebit - totalKredit
    end%float in
  mkBalance account.1 (acc_kode account.2) (acc_nama account.2)
            (acc_tipe account.2) saldoAwal totalDebit totalKredit saldoAkhir.

(** Generate Balance Sheet / Financial Position Report. *)
Definition getFinancialPositionReport (filter : ReportFilter)
  : M (list Balance) :=
  do s <- get;
  let accounts :=
    map_to_list
      (base.filter (λ r : Z * Account, acc_is_active r.2 = true) (accounts s)) in
  let balanceSheetAccounts :=
    base.filter
      (λ account : Z * Account,
         acc_tipe account.2 ∈ [ASET; KEWAJIBAN; EKUITAS])
      accounts in
  let results := map (balance_of s filter) balanceSheetAccounts in
  ret (sort compare_balance results).

(** [a] comes before [b]: by type, ASET then KEWAJIBAN then EKUITAS, and by
    kode within a type. *)
Definition balance_order (a b : Balance) : Prop :=
  typeOrder (account_tipe a) < typeOrder (account_tipe b) ∨
  (typeOrder (account_tipe a) = typeOrder (account_tipe b) ∧
   localeCompare (account_kode a) (account_kode b) ≤ 0).

End reports.

(** An account the balance sheet shows. *)
Definition on_balance_sheet (a : Account) : Prop :=
  acc_is_active a = true ∧ acc_tipe a ∈ [ASET; KEWAJIBAN; EKUITAS].

(** Generate Income Statement / Profit & Loss Report: a placeholder. *)
Definition getIncomeStatementReport (filter : ReportFilter)
  : M (list Balance) :=
  ret [].

(** ** Sums and rows, used to state results *)

(** The sum of [f] over [rows], in hundredths. *)
Definition total {A} (f : A → Z) (rows : list A) : Z :=
  foldr (λ r acc, f r + acc) 0 rows.

(** Sum of debit and of kredit over the detail rows of a header, in
    hundredths. *)
Definition sum_debit (s : db) (headerId : Z) : Z :=
  total (λ r : Z * Detail, det_debit r.2) (details_of s headerId).
Definition sum_kredit (s : db) (headerId : Z) : Z :=
  total (λ r : Z * Detail, det_kredit r.2) (details_of s headerId).

(** [totalDebit] and [totalKredit] of [createCompleteTransaction]. *)
Definition input_debit (input : CreateCompleteTransactionInput) : float :=
  Amount.reduce_sum in_debit (in_details input).
Definition input_kredit (input : CreateCompleteTransactionInput) : float :=
  Amount.reduce_sum in_kredit (in_details input).

(** The balance check of [createCompleteTransaction] lets the input
    through. *)
Definition within_tolerance (input : CreateCompleteTransactionInput) : bool :=
  negb (Amount.gtb (Amount.distance (input_debit input) (input_kredit input))
                   Amount.tolerance).

(** The columns can hold the totals of the input, and the amounts of its
    lines. *)
Definition totals_fit (input : CreateCompleteTransactionInput) : bool :=
  forallb Amount.fits [input_debit input; input_kredit input].
Definition lines_fit (input : CreateCompleteTransactionInput) : bool :=
  forallb Amount.fits
          (flat_map (λ detail, [in_debit detail; in_kredit detail])
                    (in_details input)).
Definition amounts_fit (input : CreateCompleteTransactionInput) : bool :=
  totals_fit input && lines_fit input.

(** [totalDebit] and [totalKredit] of [validateTransactionBalance] and of
    [updateHeaderTotals]. *)
Definition stored_debit (s : db) (headerId : Z) : float :=
  Amount.reduce_sum
    (λ detail : Z * Detail, Amount.parseFloat (det_debit detail.2))
    (details_of s headerId).
Definition stored_kredit (s : db) (headerId : Z) : float :=
  Amount.reduce_sum
    (λ detail : Z * Detail, Amount.parseFloat (det_kredit detail.2))
    (details_of s headerId).

(** The balance check of [validateTransactionBalance] on the detail rows of
    a header. *)
Definition balanced (s : db) (headerId : Z) : bool :=
  Amount.ltb (Amount.distance (stored_debit s headerId)
                              (stored_kredit s headerId))
             Amount.tolerance.

(** The keys the sequence gives to [rows], starting at [k]. *)
Fixpoint number_from {A} (k : Z) (rows : list A) : list (Z * A) :=
  match rows with
  | [] => []
  | r :: rows => (k, r) :: number_from (k + 1) rows
  end.

(** The detail table after the sequence numbered [rows] from [k]. *)
Definition store_rows (k : Z) (rows : list Detail) (m : gmap Z Detail)
  : gmap Z Detail :=
  foldl (λ m r, <[r.1 := r.2]> m) m (number_from k rows).

(** The header row and the detail rows [createCompleteTransaction] writes. *)
Definition header_values now (input : CreateCompleteTransactionInput) : Header :=
  mkHeader (in_nomor_transaksi (in_header input))
           (in_tanggal (in_header input))
           (in_tipe (in_header input))
           (in_deskripsi (in_header input))
           (Amount.to_numeric (input_debit input))
           (Amount.to_numeric (input_kredit input))
           (in_relation_id (in_header input))
           (in_user_id (in_header input))
           false now now.

Definition detail_values now (headerId : Z)
    (input : CreateCompleteTransactionInput) : list Detail :=
  map (λ detail,
         mkDetail headerId (in_account_id detail) (in_detail_deskripsi detail)
                  (Amount.to_numeric (in_debit detail))
                  (Amount.to_numeric (in_kredit detail))
                  (in_urutan detail) now)
      (in_details input).

(** What the input refers to is in the store. *)
Definition references_exist (input : CreateCompleteTransactionInput) (s : db)
  : Prop :=
  in_user_id (in_header input) ∈ users s ∧
  (∀ r, in_relation_id (in_header input) = Some r → r ∈ relations s) ∧
  (∀ d, d ∈ in_details input → is_Some (accounts s !! in_account_id d)).

(** ** The exported operations that write *)

Inductive operation :=
  | CreateTransactionHeader (input : CreateTransactionHeaderInput)
  | CreateCompleteTransaction (input : CreateCompleteTransactionInput)
  | AddTransactionDetail (input : CreateTransactionDetailInput)
  | UpdateTransactionHeader (id : Z) (input : PartialHeaderInput)
  | UpdateTransactionDetail (id : Z) (input : PartialDetailInput)
  | PostTransaction (id : Z)
  | UnpostTransaction (id : Z)
  | DeleteTransactionDetail (id : Z)
  | DeleteTransaction (id : Z).

(** The store an operation leaves, whether it returns or throws. *)
Definition perform (now : Z) (op : operation) (s : db) : db :=
  match op with
  | CreateTransactionHeader input => after (createTransactionHeader now input) s
  | CreateCompleteTransaction input =>
      after (createCompleteTransaction now input) s
  | AddTransactionDetail input => after (addTransactionDetail now input) s
  | UpdateTransactionHeader id input =>
      after (updateTransactionHeader now id input) s
  | UpdateTransactionDetail id input =>
      after (updateTransactionDetail now id input) s
  | PostTransaction id => after (postTransaction now id) s
  | UnpostTransaction id => after (unpostTransaction now id) s
  | DeleteTransactionDetail id => after (deleteTransactionDetail now id) s
  | DeleteTransaction id => after (deleteTransaction id) s
  end.

(** Operations one after the other, each with the time it runs at. *)
Definition perform_all (ops : list (Z * operation)) (s : db) : db :=
  foldl (λ s op, perform op.1 op.2 s) s ops.

(** The sequences are ahead of every key in use, and a detail row refers to
    a header key that was given out. *)
Definition db_wf (s : db) : Prop :=
  map_Forall (λ k _, k < next_header_id s) (headers s) ∧
  map_Forall (λ k _, k < next_detail_id s) (details s) ∧
  map_Forall (λ _ d, det_header_id d < next_header_id s) (details s).

#[global] Instance db_wf_dec s : Decision (db_wf s).
Proof. unfold db_wf. apply _. Defined.

(** The header whose key is [id] is stored and posted. *)
Definition posted (id : Z) (s : db) : Prop :=
  ∃ h, headers s !! id = Some h ∧ hdr_is_posted h = true.

(** The number of detail rows of a header. *)
Definition detail_count (s : db) (headerId : Z) : nat :=
  length (details_of s headerId).

(** A posted header whose key the sequence has passed. *)
Definition stays_posted (id : Z) (s : db) : Prop :=
  id < next_header_id s ∧ posted id s.

(** Every stored header carries the sums of its detail rows. *)
Definition totals_match (s : db) : Prop :=
  ∀ id h, headers s !! id = Some h →
          hdr_total_debit h = sum_debit s id ∧
          hdr_total_kredit h = sum_kredit s id.

(** What a computation preserves, whether it returns or throws. *)
Definition preserves {A} (P : db → Prop) (m : M A) : Prop :=
  ∀ s, P s → P (after m s).

(** ** A store and inputs to run the handlers on

    The store of the handlers' tests: one user, one relation, a cash account
    and a revenue account. *)
Definition sample_db : db :=
  mkDb {[1]} {[1]}
       (<[1 := mkAccount "1001" "Cash Account" ASET 100000000 true]>
          (<[2 := mkAccount "4001" "Revenue Account" PENDAPATAN 0 true]> ∅))
       ∅ ∅ 1 1.

(** The journal entry of the tests, debit [d] to cash and kredit [k] to
    revenue, both given in thousandths. *)
Definition journal_input (nomor : string) (d k : Z)
  : CreateCompleteTransactionInput :=
  mkCompleteInput
    (mkHeaderInput nomor 1701388800000 JURNAL_UMUM "Test Transaction"
                   (Some 1) 1)
    [mkDetailInput 0 1 "Debit entry" (Amount.ratio d 1000) 0%float 1;
     mkDetailInput 0 2 "Credit entry" 0%float (Amount.ratio k 1000) 2].

(** A journal entry with amounts below a hundredth: 0.125 and 0.125 to the
    debit of cash, 0.25 to the kredit of revenue. *)
Definition eighths_input : CreateCompleteTransactionInput :=
  mkCompleteInput
    (mkHeaderInput "TXN-202312-001" 1701388800000 JURNAL_UMUM
                   "Test Transaction" (Some 1) 1)
    [mkDetailInput 0 1 "Debit entry" (Amount.ratio 125 1000) 0%float 1;
     mkDetailInput 0 1 "Debit entry" (Amount.ratio 125 1000) 0%float 2;
     mkDetailInput 0 2 "Credit entry" 0%float (Amount.ratio 250 1000) 3].

(** A calendar and a collation to run [generateTransactionNumber] and the
    report with: the civil date of a time value in UTC, and the order of
    the code units. *)
Definition utc_date (t : Z) : Z * Z :=
  let z := t / 86400000 + 719468 in
  let era := z / 146097 in
  let doe := z - era * 146097 in
  let yoe := (doe - doe / 1460 + doe / 36524 - doe / 146096) / 365 in
  let doy := doe - (365 * yoe + yoe / 4 - yoe / 100) in
  let mp := (5 * doy + 2) / 153 in
  let m := if mp <? 10 then mp + 3 else mp - 9 in
  (yoe + era * 400 + (if m <=? 2 then 1 else 0), m - 1).

Definition utc_getFullYear (t : Z) : Z := (utc_date t).1.
Definition utc_getMonth (t : Z) : Z := (utc_date t).2.

Definition code_unit_compare (a b : string) : Z :=
  match String.compare a b with
  | Lt => -1
  | Eq => 0
  | Gt => 1
  end.


(** ** The queries of handlers/transactions.ts *)

(** A header and a detail row as the handlers return them: the row with
    its key, the amounts parsed to numbers. *)
Record TransactionHeader := mkTransactionHeader {
  th_id : Z;
  th_nomor_transaksi : string;
  th_tanggal : Z;
  th_tipe : transaction_type;
  th_deskripsi : string;
  th_total_debit : float;
  th_total_kredit : float;
  th_relation_id : option Z;
  th_user_id : Z;
  th_is_posted : bool;
  th_created_at : Z;
  th_updated_at : Z
}.

Record TransactionDetail := mkTransactionDetail {
  td_id : Z;
  td_header_id : Z;
  td_account_id : Z;
  td_deskripsi : string;
  td_debit : float;
  td_kredit : float;
  td_urutan : Z;
  td_created_at : Z
}.

Record CompleteTransaction := mkCompleteTransaction {
  ct_header : TransactionHeader;
  ct_details : list TransactionDetail
}.

(** [{...result, total_debit: parseFloat(result.total_debit),
    total_kredit: parseFloat(result.total_kredit)}]. *)
Definition to_header (result : Z * Header) : TransactionHeader :=
  mkTransactionHeader
    result.1 (hdr_nomor_transaksi result.2) (hdr_tanggal result.2)
    (hdr_tipe result.2) (hdr_deskripsi result.2)
    (Amount.parseFloat (hdr_total_debit result.2))
    (Amount.parseFloat (hdr_total_kredit result.2))
    (hdr_relation_id result.2) (hdr_user_id result.2)
    (hdr_is_posted result.2) (hdr_created_at result.2)
    (hdr_updated_at result.2).

(** [{...detail, debit: parseFloat(detail.debit),
    kredit: parseFloat(detail.kredit)}]. *)
Definition to_detail (detail : Z * Detail) : TransactionDetail :=
  mkTransactionDetail
    detail.1 (det_header_id detail.2) (det_account_id detail.2)
    (det_deskripsi detail.2)
    (Amount.parseFloat (det_debit detail.2))
    (Amount.parseFloat (det_kredit detail.2))
    (det_urutan detail.2) (det_created_at detail.2).

(** [orderBy(desc(created_at))], [orderBy(desc(tanggal))] and
    [orderBy(asc(urutan))] as comparisons: not above 0 when the first row
    may come first. *)
Definition by_created_at_desc (a b : Z * Header) : Z :=
  hdr_created_at b.2 - hdr_created_at a.2.
Definition by_tanggal_desc (a b : Z * Header) : Z :=
  hdr_tanggal b.2 - hdr_tanggal a.2.
Definition by_urutan_asc (a b : Z * Detail) : Z :=
  det_urutan a.2 - det_urutan b.2.

(** [select().from(transaction_headers).where(..).orderBy(..)]. *)
Definition select_headers (where_ : Z * Header → bool)
    (orderBy : Z * Header → Z * Header → Z) (s : db) : list (Z * Header) :=
  sort orderBy (filter (λ r, where_ r = true) (map_to_list (headers s))).

(** What the database answers to a [limit] or an [offset] below 0. *)
Inductive query_error :=
  | OFFSET_must_not_be_negative
  | LIMIT_must_not_be_negative.

(** [.limit(limit).offset(offset)] on the rows of a query. *)
Definition limit_offset {A} (limit offset : Z) (rows : list A)
  : query_error + list A :=
  if offset <? 0 then inl OFFSET_must_not_be_negative
  else if limit <? 0 then inl LIMIT_must_not_be_negative
  else inr (take (Z.to_nat limit) (drop (Z.to_nat offset) rows)).

(** Get all transaction headers with pagination; [page] and [limit] are 1
    and 50 when they are left out. *)
Definition getTransactionHeaders (page limit : option Z) (s : db)
  : query_error + list TransactionHeader :=
  let page := default 1 page in
  let limit := default 50 limit in
  let offset := (page - 1) * limit in
  match limit_offset limit offset
          (select_headers (λ _, true) by_created_at_desc s) with
  | inl e => inl e
  | inr results => inr (map to_header results)
  end.

(** Get transaction header by ID with details; [None] is [null]. *)
Definition getTransactionById (id : Z) (s : db) : option CompleteTransaction :=
  match headers s !! id with
  | None => None
  | Some headerData =>
      let detailResults := sort by_urutan_asc (details_of s id) in
      Some (mkCompleteTransaction (to_header (id, headerData))
                                  (map to_detail detailResults))
  end.

(** Get transactions by type. *)
Definition getTransactionsByType (tipe : transaction_type) (s : db)
  : list TransactionHeader :=
  map to_header
      (select_headers (λ r, bool_decide (hdr_tipe r.2 = tipe))
                      by_created_at_desc s).

(** Get transactions by date range. *)
Definition getTransactionsByDateRange (fromDate toDate : Z) (s : db)
  : list TransactionHeader :=
  map to_header
      (select_headers
         (λ r, (fromDate <=? hdr_tanggal r.2) && (hdr_tanggal r.2 <=? toDate))
         by_tanggal_desc s).

(** Get transactions by relation (customer/supplier). *)
Definition getTransactionsByRelation (relationId : Z) (s : db)
  : list TransactionHeader :=
  map to_header
      (select_headers (λ r, bool_decide (hdr_relation_id r.2 = Some relationId))
                      by_created_at_desc s).

(** Get unposted transactions. *)
Definition getUnpostedTransactions (s : db) : list TransactionHeader :=
  map to_header
      (select_headers (λ r, negb (hdr_is_posted r.2)) by_created_at_desc s).

(** ** Statements about the stored transactions *)

(** Every detail row is a row of a stored header. *)
Definition details_have_headers (s : db) : Prop :=
  map_Forall (λ _ d, is_Some (headers s !! det_header_id d)) (details s).

#[global] Instance details_have_headers_dec s :
  Decision (details_have_headers s).
Proof. unfold details_have_headers. apply _. Defined.

(** Detail rows have headers, and the header with key [hid] is stored. *)
Definition details_have_headers_with (hid : Z) (s : db) : Prop :=
  details_have_headers s ∧ is_Some (headers s !! hid).

(** The header row with the totals [updateHeaderTotals] writes. *)
Definition with_totals (now totalDebit totalKredit : Z) (h : Header) : Header :=
  mkHeader (hdr_nomor_transaksi h) (hdr_tanggal h) (hdr_tipe h)
           (hdr_deskripsi h) totalDebit totalKredit
           (hdr_relation_id h) (hdr_user_id h) (hdr_is_posted h)
           (hdr_created_at h) now.

(** The totals of the header are the sums of its stored detail rows, as
    [updateHeaderTotals] computes and the columns keep them. *)
Definition totals_recomputed (s : db) (id : Z) : Prop :=
  ∃ h, headers s !! id = Some h ∧
       hdr_total_debit h = Amount.to_numeric (stored_debit s id) ∧
       hdr_total_kredit h = Amount.to_numeric (stored_kredit s id).

#[global] Instance Header_eq_dec : EqDecision Header.
Proof. solve_decision. Defined.

(** The times at which the stored headers were created. *)
Definition created_ats (s : db) : list Z :=
  (λ r : Z * Header, hdr_created_at r.2) <$> map_to_list (headers s).

(** Headers in the order of [desc(created_at)]. *)
Definition newest_first (rows : list (Z * Header)) : Prop :=
  StronglySorted (λ a b : Z * Header, hdr_created_at b.2 ≤ hdr_created_at a.2)
                 rows.

(** The rows of a page, out of all rows in order. *)
Definition page_of {A} (page limit : Z) (all : list A) : list A :=
  take (Z.to_nat limit) (drop (Z.to_nat ((page - 1) * limit)) all).

(** A store with two headers, created at the times 0 and 1. *)
Definition two_headers_db : db :=
  perform_all
    [(0, CreateTransactionHeader
           (mkHeaderInput "TXN-202312-001" 1701388800000 JURNAL_UMUM
                          "First" None 1));
     (1, CreateTransactionHeader
           (mkHeaderInput "TXN-202312-002" 1701475200000 PENERIMAAN_DANA
                          "Second" (Some 1) 1))]
    sample_db.

(** ** The inventory handlers

    The groups of inventory and the items, from the second part of
    [server/src/handlers/transactions.ts].  Both tables have a [serial] key
    and a [kode] that is declared [unique()]; [stok], [min_stok] and
    [kelompok_id] are [integer] columns, which hold the whole numbers from
    [-2^31] to [2^31 - 1], and a statement that is given another number for
    an [integer] column or key fails; [harga_beli] and [harga_jual] are
    [numeric(15,2)].  The schema declares no foreign key. *)

Module Inventory.

(** A row of [inventory_groups], without its key. *)
Record Group := mkGroup {
  grp_kode : string;
  grp_nama : string;
  grp_deskripsi : option string;
  grp_created_at : Z;
  grp_updated_at : Z
}.

(** A row of [inventory], without its key; the prices in hundredths. *)
Record Item := mkItem {
  itm_kode : string;
  itm_nama : string;
  itm_kelompok_id : Z;
  itm_satuan : string;
  itm_harga_beli : Z;
  itm_harga_jual : Z;
  itm_stok : Z;
  itm_min_stok : Z;
  itm_is_active : bool;
  itm_created_at : Z;
  itm_updated_at : Z
}.

Record store := mkStore {
  groups : gmap Z Group;
  items : gmap Z Item;
  next_group_id : Z;
  next_item_id : Z
}.

(** An item as the handlers return it: the row with its key, the prices
    parsed to numbers. *)
Record Inventory := mkInventory {
  inv_id : Z;
  inv_kode : string;
  inv_nama : string;
  inv_kelompok_id : Z;
  inv_satuan : string;
  inv_harga_beli : float;
  inv_harga_jual : float;
  inv_stok : Z;
  inv_min_stok : Z;
  inv_is_active : bool;
  inv_created_at : Z;
  inv_updated_at : Z
}.

(** [{...item, harga_beli: parseFloat(item.harga_beli),
    harga_jual: parseFloat(item.harga_jual)}]. *)
Definition to_inventory (item : Z * Item) : Inventory :=
  mkInventory item.1 (itm_kode item.2) (itm_nama item.2)
              (itm_kelompok_id item.2) (itm_satuan item.2)
              (Amount.parseFloat (itm_harga_beli item.2))
              (Amount.parseFloat (itm_harga_jual item.2))
              (itm_stok item.2) (itm_min_stok item.2) (itm_is_active item.2)
              (itm_created_at item.2) (itm_updated_at item.2).

Record CreateInventoryGroupInput := mkGroupInput {
  new_group_kode : string;
  new_group_nama : string;
  new_group_deskripsi : option string
}.

(** [Partial<...>]: a field that is [undefined] is [None]. *)
Record PartialGroupInput := mkPartialGroup {
  set_group_kode : option string;
  set_group_nama : option string;
  set_group_deskripsi : option (option string)
}.

Record CreateInventoryInput := mkInventoryInput {
  new_kode : string;
  new_nama : string;
  new_kelompok_id : Z;
  new_satuan : string;
  new_harga_beli : float;
  new_harga_jual : float;
  new_stok : Z;
  new_min_stok : Z;
  new_is_active : bool
}.

Record PartialInventoryInput := mkPartialInventory {
  set_kode : option string;
  set_nama : option string;
  set_kelompok_id : option Z;
  set_satuan : option string;
  set_harga_beli : option float;
  set_harga_jual : option float;
  set_stok : option Z;
  set_min_stok : option Z;
  set_is_active : option bool
}.

Inductive error :=
  | Inventory_group_with_ID_not_found (id : Z)
  | Cannot_delete_inventory_group_it_has_inventory_items
  | Inventory_group_with_ID_does_not_exist (id : Z)
  | Inventory_item_with_ID_not_found (id : Z)
  | Unique_violation_kode
  | Integer_out_of_range
  | Numeric_field_overflow.

Inductive result (A : Type) :=
  | Returns (a : A)
  | Throws (e : error).
Arguments Returns {A} a.
Arguments Throws {A} e.

(** Computations on the store that return or throw. *)
Definition M (A : Type) : Type := store → result A * store.

Definition ret {A} (a : A) : M A := λ s, (Returns a, s).
Definition throw {A} (e : error) : M A := λ s, (Throws e, s).
Definition bind {A B} (m : M A) (k : A → M B) : M B :=
  λ s, match m s with
       | (Returns a, s') => k a s'
       | (Throws e, s') => (Throws e, s')
       end.
Definition get : M store := λ s, (Returns s, s).
Definition put (s' : store) : M unit := λ _, (Returns tt, s').

Declare Scope inventory_scope.
Notation "'do' x <- m ; k" := (bind m (λ x, k))
  (at level 10, x name, m at level 100, k at level 200) : inventory_scope.
Notation "m ;; k" := (bind m (λ _, k))
  (at level 100, k at level 200, right associativity) : inventory_scope.
#[local] Open Scope inventory_scope.

Definition throw_if (c : bool) (e : error) : M unit :=
  if c then throw e else ret tt.

Definition outcome {A} (m : M A) (s : store) : result A := (m s).1.
Definition after {A} (m : M A) (s : store) : store := (m s).2.

(** *** Statements of the query builder *)

(** A whole number an [integer] column or key can hold. *)
Definition int4 (x : Z) : bool := (- 2 ^ 31 <=? x) && (x <? 2 ^ 31).

(** The numbers a statement gives for [integer] columns and keys. *)
Definition integer_values (values : list Z) : M unit :=
  throw_if (negb (forallb int4 values)) Integer_out_of_range.

(** The numbers a statement writes to [numeric(15,2)] columns. *)
Definition numeric_values (values : list float) : M unit :=
  throw_if (negb (forallb Amount.fits values)) Numeric_field_overflow.

Definition group_kode_in_use (s : store) (kode : string) : bool :=
  bool_decide (map_Exists (λ _ g, grp_kode g = kode) (groups s)).

Definition item_kode_in_use (s : store) (kode : string) : bool :=
  bool_decide (map_Exists (λ _ i, itm_kode i = kode) (items s)).

(** [select().from(inventory_groups).where(eq(id, id))]. *)
Definition select_group (id : Z) : M (list (Z * Group)) :=
  integer_values [id];;
  do s <- get;
  ret match groups s !! id with
      | Some g => [(id, g)]
      | None => []
      end.

(** [insert(inventory_groups).values(row).returning()]: the one row that
    was stored. *)
Definition insert_group (row : Group) : M (Z * Group) :=
  do s <- get;
  throw_if (group_kode_in_use s (grp_kode row)) Unique_violation_kode;;
  let id := next_group_id s in
  put (mkStore (<[id := row]> (groups s)) (items s)
               (id + 1) (next_item_id s));;
  ret (id, row).

(** [update(inventory_groups).set(..).where(eq(id, id)).returning()]. *)
Definition update_group (id : Z) (f : Group → Group)
  : M (list (Z * Group)) :=
  integer_values [id];;
  do s <- get;
  match groups s !! id with
  | None => ret []
  | Some g =>
      let g' := f g in
      throw_if
        (negb (String.eqb (grp_kode g') (grp_kode g))
         && group_kode_in_use s (grp_kode g'))
        Unique_violation_kode;;
      put (mkStore (<[id := g']> (groups s)) (items s)
                   (next_group_id s) (next_item_id s));;
      ret [(id, g')]
  end.

(** [delete(inventory_groups).where(eq(id, id)).returning()]. *)
Definition delete_group (id : Z) : M (list (Z * Group)) :=
  integer_values [id];;
  do s <- get;
  match groups s !! id with
  | None => ret []
  | Some g =>
      put (mkStore (delete id (groups s)) (items s)
                   (next_group_id s) (next_item_id s));;
      ret [(id, g)]
  end.

(** The count of the rows of
    [select(..).from(inventory).where(eq(kelompok_id, id))]. *)
Definition count_items_of (id : Z) : M Z :=
  integer_values [id];;
  do s <- get;
  ret (Z.of_nat (size (filter (λ r : Z * Item, itm_kelompok_id r.2 = id)
                              (items s)))).

(** [select().from(inventory).where(..)]. *)
Definition select_items (where_ : Z * Item → bool) : M (list (Z * Item)) :=
  do s <- get;
  ret (filter (λ r, where_ r = true) (map_to_list (items s))).

(** [select().from(inventory).where(eq(id, id))]. *)
Definition select_item (id : Z) : M (list (Z * Item)) :=
  integer_values [id];;
  do s <- get;
  ret match items s !! id with
      | Some i => [(id, i)]
      | None => []
      end.

(** [insert(inventory).values(..).returning()], from the numbers of the
    input: the one row that was stored. *)
Definition insert_item (now : Z) (input : CreateInventoryInput)
  : M (Z * Item) :=
  integer_values [new_kelompok_id input; new_stok input; new_min_stok input];;
  numeric_values [new_harga_beli input; new_harga_jual input];;
  do s <- get;
  throw_if (item_kode_in_use s (new_kode input)) Unique_violation_kode;;
  let id := next_item_id s in
  let row :=
    mkItem (new_kode input) (new_nama input) (new_kelompok_id input)
           (new_satuan input)
           (Amount.to_numeric (new_harga_beli input))
           (Amount.to_numeric (new_harga_jual input))
           (new_stok input) (new_min_stok input) (new_is_active input)
           now now in
  put (mkStore (groups s) (<[id := row]> (items s))
               (next_group_id s) (id + 1));;
  ret (id, row).

(** The row as [updateData] of [updateInventory] changes it. *)
Definition set_item (now : Z) (input : PartialInventoryInput) (i : Item)
  : Item :=
  mkItem (default (itm_kode i) (set_kode input))
         (default (itm_nama i) (set_nama input))
         (default (itm_kelompok_id i) (set_kelompok_id input))
         (default (itm_satuan i) (set_satuan input))
         (default (itm_harga_beli i)
                  (Amount.to_numeric <$> set_harga_beli input))
         (default (itm_harga_jual i)
                  (Amount.to_numeric <$> set_harga_jual input))
         (default (itm_stok i) (set_stok input))
         (default (itm_min_stok i) (set_min_stok input))
         (default (itm_is_active i) (set_is_active input))
         (itm_created_at i) now.

(** [update(inventory).set(..).where(eq(id, id)).returning()]; [integers]
    and [numerics] are the numbers the [set] gives, [f] the row as the
    [set] changes it. *)
Definition update_item (id : Z) (integers : list Z) (numerics : list float)
    (f : Item → Item) : M (list (Z * Item)) :=
  integer_values (integers ++ [id]);;
  numeric_values numerics;;
  do s <- get;
  match items s !! id with
  | None => ret []
  | Some i =>
      let i' := f i in
      throw_if
        (negb (String.eqb (itm_kode i') (itm_kode i))
         && item_kode_in_use s (itm_kode i'))
        Unique_violation_kode;;
      put (mkStore (groups s) (<[id := i']> (items s))
                   (next_group_id s) (next_item_id s));;
      ret [(id, i')]
  end.

(** [delete(inventory).where(eq(id, id)).returning()]. *)
Definition delete_item (id : Z) : M (list (Z * Item)) :=
  integer_values [id];;
  do s <- get;
  match items s !! id with
  | None => ret []
  | Some i =>
      put (mkStore (groups s) (delete id (items s))
                   (next_group_id s) (next_item_id s));;
      ret [(id, i)]
  end.

(** *** Inventory groups *)

(** Get all inventory groups. *)
Definition getInventoryGroups : M (list (Z * Group)) :=
  do s <- get;
  ret (map_to_list (groups s)).

(** Get inventory group by ID; [None] is [null]. *)
Definition getInventoryGroupById (id : Z) : M (option (Z * Group)) :=
  do results <- select_group id;
  ret (head results).

(** Create new inventory group. *)
Definition createInventoryGroup (now : Z) (input : CreateInventoryGroupInput)
  : M (Z * Group) :=
  insert_group
    (mkGroup (new_group_kode input) (new_group_nama input)
             (new_group_deskripsi input) now now).

(** The row as [updateData] of [updateInventoryGroup] changes it. *)
Definition set_group (now : Z) (input : PartialGroupInput) (g : Group)
  : Group :=
  mkGroup (default (grp_kode g) (set_group_kode input))
          (default (grp_nama g) (set_group_nama input))
          (default (grp_deskripsi g) (set_group_deskripsi input))
          (grp_created_at g) now.

(** Update inventory group. *)
Definition updateInventoryGroup (now : Z) (id : Z) (input : PartialGroupInput)
  : M (Z * Group) :=
  do results <- update_group id (set_group now input);
  match results with
  | [] => throw (Inventory_group_with_ID_not_found id)
  | updated :: _ => ret updated
  end.

(** Delete inventory group. *)
Definition deleteInventoryGroup (id : Z) : M bool :=
  do count <- count_items_of id;
  throw_if (0 <? count) Cannot_delete_inventory_group_it_has_inventory_items;;
  do results <- delete_group id;
  ret (0 <? Z.of_nat (length results)).

(** *** Inventory items *)

(** Get all inventory items. *)
Definition getInventory : M (list Inventory) :=
  do results <- select_items (λ _, true);
  ret (map to_inventory results).

(** Get inventory item by ID; [None] is [null]. *)
Definition getInventoryById (id : Z) : M (option Inventory) :=
  do results <- select_item id;
  match results with
  | [] => ret None
  | item :: _ => ret (Some (to_inventory item))
  end.

(** Get inventory items by group. *)
Definition getInventoryByGroup (kelompokId : Z) : M (list Inventory) :=
  integer_values [kelompokId];;
  do results <-
    select_items (λ r, bool_decide (itm_kelompok_id r.2 = kelompokId));
  ret (map to_inventory results).

(** Get low stock inventory items. *)
Definition getLowStockInventory : M (list Inventory) :=
  do results <- select_items (λ r, itm_stok r.2 <=? itm_min_stok r.2);
  ret (map to_inventory results).

(** Create new inventory item. *)
Definition createInventory (now : Z) (input : CreateInventoryInput)
  : M Inventory :=
  do group <- getInventoryGroupById (new_kelompok_id input);
  match group with
  | None =>
      throw (Inventory_group_with_ID_does_not_exist (new_kelompok_id input))
  | Some _ =>
      do item <- insert_item now input;
      ret (to_inventory item)
  end.

(** Update inventory item. *)
Definition updateInventory (now : Z) (id : Z) (input : PartialInventoryInput)
  : M Inventory :=
  match set_kelompok_id input with
  | Some kelompok_id =>
      do group <- getInventoryGroupById kelompok_id;
      match group with
      | None => throw (Inventory_group_with_ID_does_not_exist kelompok_id)
      | Some _ => ret tt
      end
  | None => ret tt
  end;;
  do results <-
    update_item id
      (option_list (set_kelompok_id input) ++ option_list (set_stok input)
       ++ option_list (set_min_stok input))
      (option_list (set_harga_beli input)
       ++ option_list (set_harga_jual input))
      (set_item now input);
  match results with
  | [] => throw (Inventory_item_with_ID_not_found id)
  | item :: _ => ret (to_inventory item)
  end.

(** Update inventory stock. *)
Definition updateInventoryStock (now : Z) (id : Z) (quantity : Z)
  : M Inventory :=
  do results <-
    update_item id [quantity] []
      (λ i, mkItem (itm_kode i) (itm_nama i) (itm_kelompok_id i)
                   (itm_satuan i) (itm_harga_beli i) (itm_harga_jual i)
                   quantity (itm_min_stok i) (itm_is_active i)
                   (itm_created_at i) now);
  match results with
  | [] => throw (Inventory_item_with_ID_not_found id)
  | item :: _ => ret (to_inventory item)
  end.

(** Delete inventory item. *)
Definition deleteInventory (id : Z) : M bool :=
  do results <- delete_item id;
  ret (0 <? Z.of_nat (length results)).

(** *** The operations that write, and statements about the store *)

Inductive operation :=
  | CreateInventoryGroup (input : CreateInventoryGroupInput)
  | UpdateInventoryGroup (id : Z) (input : PartialGroupInput)
  | DeleteInventoryGroup (id : Z)
  | CreateInventory (input : CreateInventoryInput)
  | UpdateInventory (id : Z) (input : PartialInventoryInput)
  | UpdateInventoryStock (id : Z) (quantity : Z)
  | DeleteInventory (id : Z).

(** The store an operation leaves, whether it returns or throws. *)
Definition perform (now : Z) (op : operation) (s : store) : store :=
  match op with
  | CreateInventoryGroup input => after (createInventoryGroup now input) s
  | UpdateInventoryGroup id input =>
      after (updateInventoryGroup now id input) s
  | DeleteInventoryGroup id => after (deleteInventoryGroup id) s
  | CreateInventory input => after (createInventory now input) s
  | UpdateInventory id input => after (updateInventory now id input) s
  | UpdateInventoryStock id quantity =>
      after (updateInventoryStock now id quantity) s
  | DeleteInventory id => after (deleteInventory id) s
  end.

Definition perform_all (ops : list (Z * operation)) (s : store) : store :=
  foldl (λ s op, perform op.1 op.2 s) s ops.

(** Every item is in a stored group. *)
Definition items_have_groups (s : store) : Prop :=
  map_Forall (λ _ i, is_Some (groups s !! itm_kelompok_id i)) (items s).

#[global] Instance items_have_groups_dec s : Decision (items_have_groups s).
Proof. unfold items_have_groups. apply _. Defined.

(** What a computation preserves, whether it returns or throws. *)
Definition preserves {A} (P : store → Prop) (m : M A) : Prop :=
  ∀ s, P s → P (after m s).

(** The item with a new [stok]. *)
Definition with_stok (now quantity : Z) (i : Item) : Item :=
  mkItem (itm_kode i) (itm_nama i) (itm_kelompok_id i) (itm_satuan i)
         (itm_harga_beli i) (itm_harga_jual i) quantity (itm_min_stok i)
         (itm_is_active i) (itm_created_at i) now.

(** A store to run the handlers on: one group with one item. *)
Definition sample_store : store :=
  mkStore {[1 := mkGroup "GRP001" "Test Group"
                         (Some "Test group description") 0 0]}
          {[1 := mkItem "ITM001" "Test Item" 1 "pcs" 1000000 1500000 50 10
                        true 0 0]}
          2 2.

End Inventory.
(** * Verification *)

(** ** Running a handler *)

Ltac run_monad :=
  unfold outcome, after, throw_if, bind, get, put, ret, throw; simpl.

Lemma validateTransactionBalance_run headerId s :
  validateTransactionBalance headerId s = (Returns (balanced s headerId), s).
Proof. reflexivity. Qed.

(** A [set] that keeps [nomor_transaksi] cannot break its uniqueness. *)
Lemma update_header_run id f h s :
  headers s !! id = Some h →
  hdr_nomor_transaksi (f h) = hdr_nomor_transaksi h →
  update_header id f s
  = (Returns [(id, f h)], with_headers (<[id := f h]> (headers s)) s).
Proof.
  intros Hh Hn. unfold update_header. run_monad. rewrite Hh, Hn.
  now rewrite String.eqb_refl.
Qed.

Lemma update_header_missing id f s :
  headers s !! id = None → update_header id f s = (Returns [], s).
Proof. intros Hh. unfold update_header. run_monad. now rewrite Hh. Qed.

Lemma postTransaction_run now id s :
  postTransaction now id s
  = if balanced s id
    then match headers s !! id with
         | Some h =>
             (Returns (id, set_posted now true h),
              with_headers (<[id := set_posted now true h]> (headers s)) s)
         | None => (Throws Transaction_not_found, s)
         end
    else (Throws Transaction_is_not_balanced, s).
Proof.
  unfold postTransaction, bind at 1.
  rewrite validateTransactionBalance_run.
  destruct (balanced s id); run_monad; [|done].
  destruct (headers s !! id) as [h|] eqn:Hh.
  - now rewrite (update_header_run id _ h).
  - now rewrite update_header_missing.
Qed.

(** No rows: both sums are 0 and the check passes. *)
Lemma balanced_without_details s id : details_of s id = [] → balanced s id = true.
Proof.
  intros Hnone. unfold balanced, stored_debit, stored_kredit.
  rewrite Hnone. vm_compute. reflexivity.
Qed.

(** C10. A header without detail rows is balanced for
    [validateTransactionBalance], so [postTransaction] does not throw the
    balance error on it and marks it posted. *)
Theorem postTransaction_without_details now id h s :
  headers s !! id = Some h →
  details_of s id = [] →
  outcome (validateTransactionBalance id) s = Returns true ∧
  outcome (postTransaction now id) s = Returns (id, set_posted now true h) ∧
  headers (after (postTransaction now id) s) !! id
    = Some (set_posted now true h) ∧
  hdr_is_posted (set_posted now true h) = true.
Proof.
  intros Hh Hnone. unfold outcome, after.
  rewrite validateTransactionBalance_run, postTransaction_run.
  rewrite (balanced_without_details s id Hnone), Hh. simpl.
  now rewrite lookup_insert_eq.
Qed.

(** A handler that throws before it writes. *)
Lemma throws_unchanged {A} (m : M A) s e :
  m s = (Throws e, s) → outcome m s = Throws e ∧ after m s = s.
Proof. unfold outcome, after. now intros ->. Qed.

(** C3. A posted header is immutable in content: on a header with
    [is_posted = true] each of [updateTransactionHeader],
    [addTransactionDetail], [updateTransactionDetail],
    [deleteTransactionDetail] and [deleteTransaction] throws, and the store,
    with the header and all its detail rows, stays as it was. *)
Theorem posted_transaction_content_immutable now id h s :
  headers s !! id = Some h →
  hdr_is_posted h = true →
  (∀ input,
     outcome (updateTransactionHeader now id input) s
       = Throws Cannot_update_posted_transaction ∧
     after (updateTransactionHeader now id input) s = s) ∧
  (∀ input, in_header_id input = id →
     outcome (addTransactionDetail now input) s
       = Throws Cannot_add_detail_to_posted_transaction ∧
     after (addTransactionDetail now input) s = s) ∧
  (∀ detail_id d input,
     details s !! detail_id = Some d → det_header_id d = id →
     outcome (updateTransactionDetail now detail_id input) s
       = Throws Cannot_update_detail_of_posted_transaction ∧
     after (updateTransactionDetail now detail_id input) s = s) ∧
  (∀ detail_id d,
     details s !! detail_id = Some d → det_header_id d = id →
     outcome (deleteTransactionDetail now detail_id) s
       = Throws Cannot_delete_detail_from_posted_transaction ∧
     after (deleteTransactionDetail now detail_id) s = s) ∧
  (outcome (deleteTransaction id) s = Throws Cannot_delete_posted_transaction ∧
   after (deleteTransaction id) s = s).
Proof.
  intros Hh Hp. split; [|split; [|split; [|split]]].
  - intros input. apply throws_unchanged.
    unfold updateTransactionHeader. run_monad. now rewrite Hh, Hp.
  - intros input <-. apply throws_unchanged.
    unfold addTransactionDetail. run_monad. now rewrite Hh, Hp.
  - intros detail_id d input Hd <-. apply throws_unchanged.
    unfold updateTransactionDetail. run_monad. now rewrite Hd, Hh, Hp.
  - intros detail_id d Hd <-. apply throws_unchanged.
    unfold deleteTransactionDetail. run_monad. now rewrite Hd, Hh, Hp.
  - apply throws_unchanged.
    unfold deleteTransaction. run_monad. now rewrite Hh, Hp.
Qed.

(** ** Creating a transaction *)

Lemma store_rows_below k rows m j :
  j < k → store_rows k rows m !! j = m !! j.
Proof.
  unfold store_rows. revert k m.
  induction rows as [|r rows IH]; intros k m Hj; simpl; [done|].
  rewrite IH by lia. apply lookup_insert_ne. lia.
Qed.

Lemma store_rows_lookup k rows m j d :
  (j, d) ∈ number_from k rows → store_rows k rows m !! j = Some d.
Proof.
  unfold store_rows. revert k m.
  induction rows as [|r rows IH]; intros k m Hin; simpl in *.
  - by apply elem_of_nil in Hin.
  - apply elem_of_cons in Hin as [Heq|Hin]; [|now apply IH].
    injection Heq as -> ->.
    pose proof (store_rows_below (k + 1) rows (<[k:=r]> m) k) as Hb.
    unfold store_rows in Hb. rewrite Hb by lia. apply lookup_insert_eq.
Qed.

Lemma length_number_from {A} k (rows : list A) :
  length (number_from k rows) = length rows.
Proof. revert k. induction rows; intros k; simpl; [done|]. now rewrite IHrows. Qed.

Lemma insert_detail_rows_run rows s :
  insert_detail_rows rows s
  = (Returns (number_from (next_detail_id s) rows),
     mkDb (users s) (relations s) (accounts s) (headers s)
          (store_rows (next_detail_id s) rows (details s))
          (next_header_id s) (next_detail_id s + Z.of_nat (length rows))).
Proof.
  revert s. induction rows as [|r rows IH]; intros s.
  - simpl. unfold ret, store_rows. simpl. destruct s; simpl.
    now rewrite Z.add_0_r.
  - cbn [insert_detail_rows]. unfold bind at 1. unfold insert_detail at 1.
    run_monad. rewrite IH. simpl.
    do 2 f_equal. lia.
Qed.

Lemma verify_relation_run relation_id s :
  (∀ r, relation_id = Some r → r ∈ relations s) →
  verify_relation relation_id s = (Returns tt, s).
Proof.
  intros Hr. unfold verify_relation. run_monad.
  destruct relation_id as [r|]; [|done].
  unfold truthy. destruct (negb (r =? 0)); [|done].
  rewrite bool_decide_eq_false_2; [done|]. intros Hn. now apply Hn, Hr.
Qed.

Lemma verify_accounts_run ds s :
  (∀ d, d ∈ ds → is_Some (accounts s !! in_account_id d)) →
  verify_accounts ds s = (Returns tt, s).
Proof.
  induction ds as [|d ds IH]; intros Hds; simpl; [done|].
  run_monad. rewrite bool_decide_eq_false_2.
  - apply IH. intros d' Hd'. apply Hds. now right.
  - destruct (Hds d) as [a Ha]; [now left|]. now rewrite Ha.
Qed.

(** Computations that only read leave the store as it is. *)
Lemma after_throw_if c e s : after (throw_if c e) s = s.
Proof. now destruct c. Qed.

Lemma after_verify_relation r s : after (verify_relation r) s = s.
Proof.
  unfold verify_relation. run_monad. destruct r as [r|]; [|done].
  destruct (truthy _); [|done]. now destruct (bool_decide _).
Qed.

Lemma after_verify_accounts ds s : after (verify_accounts ds) s = s.
Proof.
  induction ds as [|d ds IH]; [done|].
  revert IH. simpl. run_monad. destruct (bool_decide _); [done|]. 
  intros IH. exact IH.
Qed.

(** [createCompleteTransaction] step by step: the checks in the order of the
    source, then the two inserts. *)
Lemma createCompleteTransaction_steps now input s :
  createCompleteTransaction now input s
  = if negb (within_tolerance input)
    then (Throws Total_debit_must_equal_total_kredit, s)
    else if bool_decide (in_user_id (in_header input) ∉ users s)
    then (Throws User_not_found, s)
    else match outcome (verify_relation (in_relation_id (in_header input))) s with
    | Throws e => (Throws e, s)
    | Returns _ =>
    match outcome (verify_accounts (in_details input)) s with
    | Throws e => (Throws e, s)
    | Returns _ =>
    if negb (totals_fit input)
    then (Throws Numeric_field_overflow, s)
    else if nomor_in_use s (in_nomor_transaksi (in_header input))
    then (Throws Unique_violation_nomor_transaksi, s)
    else
      let s1 :=
        mkDb (users s) (relations s) (accounts s)
             (<[next_header_id s := header_values now input]> (headers s))
             (details s) (next_header_id s + 1) (next_detail_id s) in
      let rows := detail_values now (next_header_id s) input in
      if negb (lines_fit input)
      then (Throws Numeric_field_overflow, s1)
      else
      match in_details input with
      | [] => (Throws Values_must_be_called_with_at_least_one_value, s1)
      | _ =>
          (Returns ((next_header_id s, header_values now input),
                    number_from (next_detail_id s) rows),
           mkDb (users s) (relations s) (accounts s) (headers s1)
                (store_rows (next_detail_id s) rows (details s))
                (next_header_id s1)
                (next_detail_id s + Z.of_nat (length rows)))
      end
    end end.
Proof.
  unfold createCompleteTransaction.
  fold (input_debit input) (input_kredit input).
  unfold within_tolerance. rewrite negb_involutive.
  unfold bind at 1, throw_if at 1.
  destruct (Amount.gtb _ _); [done|]. unfold ret at 1.
  unfold bind at 1, get at 1. unfold bind at 1, throw_if at 1.
  destruct (bool_decide (_ ∉ _)); [done|].
  unfold ret at 1. unfold bind at 1.
  pose proof (after_verify_relation (in_relation_id (in_header input)) s) as Hr.
  unfold after in Hr. unfold outcome at 1.
  destruct (verify_relation _ s) as [[[]|e] s']; simpl in Hr; subst s';
    simpl; [|done].
  unfold bind at 1.
  pose proof (after_verify_accounts (in_details input) s) as Ha.
  unfold after in Ha. unfold outcome at 1.
  destruct (verify_accounts _ s) as [[[]|e] s']; simpl in Ha; subst s';
    simpl; [|done].
  unfold bind at 1, numeric_columns at 1, throw_if at 1.
  fold (totals_fit input).
  destruct (negb (totals_fit input)); [done|]. unfold ret at 1.
  unfold bind at 1, insert_header at 1.
  unfold bind at 1, get at 1. unfold bind at 1, throw_if at 1.
  cbn [hdr_nomor_transaksi].
  destruct (nomor_in_use s _); [done|]. unfold ret at 1.
  unfold bind at 1, put at 1. unfold ret at 1.
  unfold bind at 1, numeric_columns at 1, throw_if at 1.
  fold (lines_fit input). cbv zeta.
  destruct (negb (lines_fit input)); [done|]. unfold ret at 1.
  unfold bind at 1. cbn [fst].
  fold (header_values now input). unfold detail_values.
  destruct (in_details input) as [|d ds]; [done|].
  cbn [map insert_details]. now rewrite insert_detail_rows_run.
Qed.

Lemma createCompleteTransaction_run now input s :
  references_exist input s →
  createCompleteTransaction now input s
  = if negb (within_tolerance input)
    then (Throws Total_debit_must_equal_total_kredit, s)
    else if negb (totals_fit input)
    then (Throws Numeric_field_overflow, s)
    else if nomor_in_use s (in_nomor_transaksi (in_header input))
    then (Throws Unique_violation_nomor_transaksi, s)
    else
      let s1 :=
        mkDb (users s) (relations s) (accounts s)
             (<[next_header_id s := header_values now input]> (headers s))
             (details s) (next_header_id s + 1) (next_detail_id s) in
      let rows := detail_values now (next_header_id s) input in
      if negb (lines_fit input)
      then (Throws Numeric_field_overflow, s1)
      else
      match in_details input with
      | [] => (Throws Values_must_be_called_with_at_least_one_value, s1)
      | _ =>
          (Returns ((next_header_id s, header_values now input),
                    number_from (next_detail_id s) rows),
           mkDb (users s) (relations s) (accounts s) (headers s1)
                (store_rows (next_detail_id s) rows (details s))
                (next_header_id s1)
                (next_detail_id s + Z.of_nat (length rows)))
      end.
Proof.
  intros (Hu & Hr & Ha). rewrite createCompleteTransaction_steps.
  rewrite (bool_decide_eq_false_2 (_ ∉ _)) by (intros Hn; now apply Hn).
  unfold outcome.
  now rewrite verify_relation_run, verify_accounts_run by done.
Qed.

Lemma journal_input_references nomor d k :
  references_exist (journal_input nomor d k) sample_db.
Proof.
  split; [|split].
  - simpl. set_solver.
  - intros r [= <-]. simpl. set_solver.
  - intros x Hx. apply elem_of_cons in Hx as [->|Hx].
    + now eexists.
    + apply elem_of_cons in Hx as [->|Hx]; [now eexists|].
      by apply elem_of_nil in Hx.
Qed.




(** ** What a handler preserves *)

Section preserves.

Context (P : db → Prop).

Lemma preserves_ret {A} (a : A) : preserves P (ret a).
Proof. now intros s. Qed.

Lemma preserves_throw {A} e : preserves P (throw (A := A) e).
Proof. now intros s. Qed.

Lemma preserves_throw_if c e : preserves P (throw_if c e).
Proof. intros s. now destruct c. Qed.

Lemma preserves_get : preserves P get.
Proof. now intros s. Qed.

Lemma after_bind {A B} (m : M A) (k : A → M B) s :
  P (after m s) → (∀ a, preserves P (k a)) → P (after (bind m k) s).
Proof.
  unfold after, bind. intros Hm Hk.
  destruct (m s) as [[a|e] s'] eqn:E; simpl in *; [|done].
  now apply Hk.
Qed.

Lemma preserves_bind {A B} (m : M A) (k : A → M B) :
  preserves P m → (∀ a, preserves P (k a)) → preserves P (bind m k).
Proof. intros Hm Hk s Hs. apply after_bind; [now apply Hm|done]. Qed.

(** Reading the store first: what follows may depend on what was read. *)
Lemma preserves_get_bind {B} (k : db → M B) :
  (∀ s, P s → P (after (k s) s)) → preserves P (bind get k).
Proof. intros Hk s Hs. now apply Hk. Qed.

End preserves.

Lemma preserves_numeric_columns P values :
  preserves P (numeric_columns values).
Proof. apply preserves_throw_if. Qed.

Lemma preserves_verify_relation P r : preserves P (verify_relation r).
Proof. intros s Hs. now rewrite after_verify_relation. Qed.

Lemma preserves_verify_accounts P ds : preserves P (verify_accounts ds).
Proof. intros s Hs. now rewrite after_verify_accounts. Qed.

Lemma preserves_validateTransactionBalance P id :
  preserves P (validateTransactionBalance id).
Proof.
  intros s Hs. unfold after. now rewrite validateTransactionBalance_run.
Qed.

(** ** Posted headers *)

Section stays_posted.

Context (id : Z).
Local Abbreviation P := (stays_posted id).

Lemma posted_insert_header row : preserves P (insert_header row).
Proof.
  intros s [Hlt (h & Hh & Hp)]. unfold insert_header. run_monad.
  destruct (nomor_in_use s _); simpl; [by split; [|exists h]|].
  split; simpl; [lia|]. exists h. split; [|done].
  simpl. rewrite lookup_insert_ne; [done|lia].
Qed.

Lemma posted_insert_detail row : preserves P (insert_detail row).
Proof. now intros s Hs. Qed.

Lemma posted_insert_detail_rows rows : preserves P (insert_detail_rows rows).
Proof.
  intros s Hs. unfold after. rewrite insert_detail_rows_run. exact Hs.
Qed.

Lemma posted_insert_details rows : preserves P (insert_details rows).
Proof.
  destruct rows; [apply preserves_throw|apply posted_insert_detail_rows].
Qed.

Lemma posted_update_detail detail_id input :
  preserves P (update_detail detail_id input).
Proof.
  unfold update_detail.
  apply preserves_bind; [apply preserves_throw_if|intros _].
  apply preserves_bind; [apply preserves_numeric_columns|intros _].
  apply preserves_get_bind. intros s Hs. now destruct (details s !! detail_id).
Qed.

Lemma posted_delete_detail detail_id : preserves P (delete_detail detail_id).
Proof. now intros s Hs. Qed.

Lemma posted_delete_details_of headerId :
  preserves P (delete_details_of headerId).
Proof. now intros s Hs. Qed.

Lemma posted_update_header id' f :
  (id' = id → ∀ h, hdr_is_posted h = true → hdr_is_posted (f h) = true) →
  preserves P (update_header id' f).
Proof.
  intros Hf s [Hlt (h & Hh & Hp)]. unfold update_header. run_monad.
  destruct (headers s !! id') as [h'|] eqn:Hh'; [|by split; [|exists h]].
  destruct (_ && _); simpl; [by split; [|exists h]|].
  split; [done|]. destruct (decide (id' = id)) as [->|Hne].
  - exists (f h'). simpl. rewrite lookup_insert_eq. split; [done|].
    apply Hf; [done|]. congruence.
  - exists h. simpl. now rewrite lookup_insert_ne.
Qed.

Lemma posted_delete_header id' : id' ≠ id → preserves P (delete_header id').
Proof.
  intros Hne s [Hlt (h & Hh & Hp)]. split; [done|]. exists h.
  unfold delete_header. run_monad. now rewrite lookup_delete_ne.
Qed.

Lemma posted_updateHeaderTotals now headerId :
  preserves P (updateHeaderTotals now headerId).
Proof.
  unfold updateHeaderTotals. apply preserves_get_bind. intros s Hs.
  apply after_bind; [now apply preserves_numeric_columns|intros _].
  apply preserves_bind; [|intros; apply preserves_ret].
  now apply posted_update_header.
Qed.

Lemma posted_createTransactionHeader now input :
  preserves P (createTransactionHeader now input).
Proof.
  unfold createTransactionHeader. apply preserves_get_bind. intros s Hs.
  apply after_bind; [now rewrite after_throw_if|intros _].
  apply preserves_bind; [apply preserves_verify_relation|intros _].
  apply posted_insert_header.
Qed.

Lemma posted_createCompleteTransaction now input :
  preserves P (createCompleteTransaction now input).
Proof.
  unfold createCompleteTransaction.
  apply preserves_bind; [apply preserves_throw_if|intros _].
  apply preserves_get_bind. intros s Hs.
  apply after_bind; [now rewrite after_throw_if|intros _].
  apply preserves_bind; [apply preserves_verify_relation|intros _].
  apply preserves_bind; [apply preserves_verify_accounts|intros _].
  apply preserves_bind; [apply preserves_numeric_columns|intros _].
  apply preserves_bind; [apply posted_insert_header|intros created].
  apply preserves_bind; [apply preserves_numeric_columns|intros _].
  apply preserves_bind; [apply posted_insert_details|intros rows].
  apply preserves_ret.
Qed.

Lemma posted_addTransactionDetail now input :
  preserves P (addTransactionDetail now input).
Proof.
  unfold addTransactionDetail. apply preserves_get_bind. intros s Hs.
  destruct (headers s !! in_header_id input); [|done].
  apply after_bind; [now rewrite after_throw_if|intros _].
  apply preserves_bind; [apply preserves_throw_if|intros _].
  apply preserves_bind; [apply preserves_numeric_columns|intros _].
  apply preserves_bind; [apply posted_insert_detail|intros created].
  apply preserves_bind; [apply posted_updateHeaderTotals|intros _].
  apply preserves_ret.
Qed.

Lemma posted_updateTransactionHeader now id' input :
  preserves P (updateTransactionHeader now id' input).
Proof.
  unfold updateTransactionHeader. apply preserves_get_bind. intros s Hs.
  destruct (headers s !! id'); [|done].
  apply after_bind; [now rewrite after_throw_if|intros _].
  apply preserves_bind.
  { destruct (truthy _); [apply preserves_throw_if|apply preserves_ret]. }
  intros _.
  apply preserves_bind; [apply preserves_verify_relation|intros _].
  apply preserves_bind; [now apply posted_update_header|intros result].
  destruct result; [apply preserves_throw|apply preserves_ret].
Qed.

Lemma posted_updateTransactionDetail now detail_id input :
  preserves P (updateTransactionDetail now detail_id input).
Proof.
  unfold updateTransactionDetail. apply preserves_get_bind. intros s Hs.
  destruct (details s !! detail_id) as [d|]; [|done].
  destruct (headers s !! det_header_id d); [|done].
  apply after_bind; [now rewrite after_throw_if|intros _].
  apply preserves_bind.
  { destruct (truthy _); [apply preserves_throw_if|apply preserves_ret]. }
  intros _.
  apply preserves_bind; [apply posted_update_detail|intros result].
  apply preserves_bind; [apply posted_updateHeaderTotals|intros _].
  destruct result; [apply preserves_throw|apply preserves_ret].
Qed.

Lemma posted_postTransaction now id' :
  preserves P (postTransaction now id').
Proof.
  unfold postTransaction.
  apply preserves_bind; [apply preserves_validateTransactionBalance|].
  intros balanced.
  apply preserves_bind; [apply preserves_throw_if|intros _].
  apply preserves_bind; [now apply posted_update_header|intros result].
  destruct result; [apply preserves_throw|apply preserves_ret].
Qed.

Lemma posted_unpostTransaction now id' :
  id' ≠ id → preserves P (unpostTransaction now id').
Proof.
  intros Hne. unfold unpostTransaction.
  apply preserves_bind; [now apply posted_update_header|intros result].
  destruct result; [apply preserves_throw|apply preserves_ret].
Qed.

Lemma posted_deleteTransactionDetail now detail_id :
  preserves P (deleteTransactionDetail now detail_id).
Proof.
  unfold deleteTransactionDetail. apply preserves_get_bind. intros s Hs.
  destruct (details s !! detail_id) as [d|]; [|done].
  destruct (headers s !! det_header_id d); [|done].
  apply after_bind; [now rewrite after_throw_if|intros _].
  apply preserves_bind; [apply posted_delete_detail|intros _].
  apply preserves_bind; [apply posted_updateHeaderTotals|intros _].
  apply preserves_ret.
Qed.

(** [deleteTransaction] deletes a header only after it saw that the header
    is not posted. *)
Lemma posted_deleteTransaction id' : preserves P (deleteTransaction id').
Proof.
  unfold deleteTransaction. apply preserves_get_bind. intros s Hs.
  destruct (headers s !! id') as [existing|] eqn:He; [|done].
  destruct (hdr_is_posted existing) eqn:Hp; [done|].
  assert (id' ≠ id) as Hne.
  { intros ->. destruct Hs as [_ (h & Hh & Hhp)]. congruence. }
  apply after_bind; [done|intros _].
  apply preserves_bind; [apply posted_delete_details_of|intros _].
  apply preserves_bind; [now apply posted_delete_header|intros _].
  apply preserves_ret.
Qed.

End stays_posted.

Lemma perform_stays_posted id now op s :
  op ≠ UnpostTransaction id →
  stays_posted id s → stays_posted id (perform now op s).
Proof.
  intros Hop Hs. destruct op; simpl.
  - now apply posted_createTransactionHeader.
  - now apply posted_createCompleteTransaction.
  - now apply posted_addTransactionDetail.
  - now apply posted_updateTransactionHeader.
  - now apply posted_updateTransactionDetail.
  - now apply posted_postTransaction.
  - apply posted_unpostTransaction; [congruence|done].
  - now apply posted_deleteTransactionDetail.
  - now apply posted_deleteTransaction.
Qed.

(** C5, as the code has it.  A posted header stays stored and posted along
    every sequence of exported operations in which [unpostTransaction] is
    not called on it; [unpostTransaction] on it puts [is_posted] back to
    false and returns the header. *)
Theorem posted_until_unposted id s ops :
  db_wf s →
  posted id s →
  (Forall (λ op : Z * operation, op.2 ≠ UnpostTransaction id) ops →
   posted id (perform_all ops s)) ∧
  (∀ now h, headers s !! id = Some h →
     outcome (unpostTransaction now id) s
       = Returns (id, set_posted now false h) ∧
     headers (perform now (UnpostTransaction id) s) !! id
       = Some (set_posted now false h) ∧
     hdr_is_posted (set_posted now false h) = false).
Proof.
  intros Hwf Hp. split.
  - intros Hops.
    assert (stays_posted id s) as Hs.
    { split; [|done]. destruct Hp as (h & Hh & _).
      destruct Hwf as [Hwf _]. exact (Hwf id h Hh). }
    clear Hp Hwf. revert s Hs.
    induction Hops as [|[now op] ops Hop Hops IH]; intros s Hs.
    + apply Hs.
    + simpl. apply IH. now apply perform_stays_posted.
  - intros now h Hh. simpl. unfold outcome, after, unpostTransaction, bind.
    rewrite (update_header_run id _ h) by done. simpl.
    now rewrite lookup_insert_eq.
Qed.

(** C5 as stated fails: the journal entry of the tests is created and
    posted, and [unpostTransaction] makes it editable again. *)
Lemma unpostTransaction_reopens_posted :
  let s2 :=
    perform_all
      [(0, CreateCompleteTransaction
             (journal_input "TXN-202312-001" 500000000 500000000));
       (1, PostTransaction 1)]
      sample_db in
  hdr_is_posted <$> headers s2 !! 1 = Some true ∧
  hdr_is_posted <$> headers (perform 2 (UnpostTransaction 1) s2) !! 1
  = Some false.
Proof. cbv zeta. split; vm_compute; reflexivity. Qed.

Lemma posted_until_unposted_witness :
  let s2 :=
    perform_all
      [(0, CreateCompleteTransaction
             (journal_input "TXN-202312-001" 500000000 500000000));
       (1, PostTransaction 1)]
      sample_db in
  posted 1
    (perform_all
       [(2, AddTransactionDetail
              (mkDetailInput 1 1 "Late entry" (Amount.ratio 100 1) 0%float 3));
        (3, DeleteTransaction 1);
        (4, UnpostTransaction 2)] s2).
Proof.
  cbv zeta.
  refine (proj1 (posted_until_unposted 1 _ _ _ _) _).
  - apply (bool_decide_eq_true_1 (db_wf _)). vm_compute. reflexivity.
  - eexists. split; vm_compute; reflexivity.
  - repeat constructor; discriminate.
Defined.

(** ** Detail rows of a created header *)

Lemma detail_count_size s headerId :
  detail_count s headerId
  = size (filter (λ r : Z * Detail, det_header_id r.2 = headerId) (details s)).
Proof. unfold detail_count, details_of. apply length_map_to_list. Qed.

(** No detail row refers to a key the sequence has not given out. *)
Lemma details_of_fresh s headerId :
  db_wf s → next_header_id s ≤ headerId →
  filter (λ r : Z * Detail, det_header_id r.2 = headerId) (details s) = ∅.
Proof.
  intros (_ & _ & Hd) Hle. apply map_empty_filter_2.
  intros k d Hk. simpl. specialize (Hd k d Hk). simpl in Hd. lia.
Qed.

Lemma size_filter_store_rows headerId k rows (m : gmap Z Detail) :
  Forall (λ d, det_header_id d = headerId) rows →
  (∀ j, k ≤ j → m !! j = None) →
  size (filter (λ r : Z * Detail, det_header_id r.2 = headerId)
               (store_rows k rows m))
  = (length rows
     + size (filter (λ r : Z * Detail, det_header_id r.2 = headerId) m))%nat.
Proof.
  intros Hrows. revert k m.
  induction Hrows as [|r rows Hr Hrows IH]; intros k m Hfresh; [done|].
  change (store_rows k (r :: rows) m)
    with (store_rows (k + 1) rows (<[k:=r]> m)).
  rewrite IH.
  - rewrite map_filter_insert_True by done.
    rewrite map_size_insert_None; [simpl; lia|].
    apply map_lookup_filter_None_2. left. apply Hfresh. lia.
  - intros j Hj. rewrite lookup_insert_ne by lia. apply Hfresh. lia.
Qed.

Lemma createTransactionHeader_steps now input s :
  createTransactionHeader now input s
  = let row :=
      mkHeader (in_nomor_transaksi input) (in_tanggal input) (in_tipe input)
               (in_deskripsi input) 0 0 (in_relation_id input)
               (in_user_id input) false now now in
    if bool_decide (in_user_id input ∉ users s)
    then (Throws User_not_found, s)
    else match outcome (verify_relation (in_relation_id input)) s with
    | Throws e => (Throws e, s)
    | Returns _ =>
    if nomor_in_use s (in_nomor_transaksi input)
    then (Throws Unique_violation_nomor_transaksi, s)
    else (Returns (next_header_id s, row),
          mkDb (users s) (relations s) (accounts s)
               (<[next_header_id s := row]> (headers s)) (details s)
               (next_header_id s + 1) (next_detail_id s))
    end.
Proof.
  unfold createTransactionHeader.
  unfold bind at 1, get at 1. unfold bind at 1, throw_if at 1.
  destruct (bool_decide (_ ∉ _)); [done|]. unfold ret at 1.
  unfold bind at 1.
  pose proof (after_verify_relation (in_relation_id input) s) as Hr.
  unfold after in Hr. unfold outcome.
  destruct (verify_relation _ s) as [[[]|e] s']; simpl in Hr; subst s';
    [|done].
  unfold insert_header. run_monad. now destruct (nomor_in_use s _).
Qed.

Lemma createTransactionHeader_returns now input s r :
  outcome (createTransactionHeader now input) s = Returns r →
  r.1 = next_header_id s ∧
  after (createTransactionHeader now input) s
  = mkDb (users s) (relations s) (accounts s)
         (<[next_header_id s := r.2]> (headers s)) (details s)
         (next_header_id s + 1) (next_detail_id s).
Proof.
  unfold outcome, after. rewrite createTransactionHeader_steps. cbv zeta.
  destruct (bool_decide (_ ∉ _)); [done|].
  destruct (outcome (verify_relation _) s); [|done].
  destruct (nomor_in_use s _); [done|]. simpl. intros [= <-]. now split.
Qed.

(** C7, as the code has it.  A journal entry that
    [createCompleteTransaction] creates is a header with one or more detail
    rows, one for each line of the input; a header that
    [createTransactionHeader] creates is stored without detail rows. *)
Theorem created_header_detail_rows s :
  db_wf s →
  (∀ now input r,
     outcome (createCompleteTransaction now input) s = Returns r →
     let s' := after (createCompleteTransaction now input) s in
     headers s' !! r.1.1 = Some r.1.2 ∧
     detail_count s' r.1.1 = length (in_details input) ∧
     (0 < detail_count s' r.1.1)%nat) ∧
  (∀ now input r,
     outcome (createTransactionHeader now input) s = Returns r →
     let s' := after (createTransactionHeader now input) s in
     headers s' !! r.1 = Some r.2 ∧ detail_count s' r.1 = 0%nat).
Proof.
  intros Hwf. split.
  - intros now input r. unfold outcome, after.
    rewrite createCompleteTransaction_steps.
    destruct (negb _); [done|].
    destruct (bool_decide (_ ∉ _)); [done|].
    destruct (outcome (verify_relation _) s); [|done].
    destruct (outcome (verify_accounts _) s); [|done].
    destruct (negb (totals_fit input)); [done|].
    destruct (nomor_in_use s _); [done|]. cbv zeta.
    destruct (negb (lines_fit input)); [done|].
    destruct (in_details input) as [|d ds] eqn:Hd; [done|].
    intros [= <-]. simpl. rewrite lookup_insert_eq. split; [done|].
    rewrite detail_count_size. simpl.
    rewrite (size_filter_store_rows (next_header_id s)).
    + rewrite details_of_fresh by (done || lia).
      rewrite map_size_empty.
      unfold detail_values. rewrite length_map, Hd. simpl. lia.
    + unfold detail_values. apply Forall_fmap, Forall_true. done.
    + intros j Hj. destruct (details s !! j) as [x|] eqn:Hx; [|done].
      destruct Hwf as (_ & Hk & _). specialize (Hk j x Hx). simpl in Hk. lia.
  - intros now input r Hret.
    destruct (createTransactionHeader_returns _ _ _ _ Hret) as [Hid Hs].
    cbv zeta. rewrite Hs, Hid. simpl. rewrite lookup_insert_eq.
    split; [done|]. rewrite detail_count_size. simpl.
    rewrite details_of_fresh by (done || lia). apply map_size_empty.
Qed.

(** C7 as stated fails: [createTransactionHeader] leaves a stored header
    that has zero detail rows. *)
Lemma createTransactionHeader_leaves_header_without_details :
  let s1 :=
    perform 0
      (CreateTransactionHeader
         (mkHeaderInput "TXN-202312-002" 1701388800000 JURNAL_UMUM
                        "Header Only Transaction" None 1))
      sample_db in
  is_Some (headers s1 !! 1) ∧ detail_count s1 1 = 0%nat.
Proof. cbv zeta. split; [now eexists|]. vm_compute. reflexivity. Qed.

Lemma created_header_detail_rows_witness :
  let input := journal_input "TXN-202312-001" 500000000 500000000 in
  detail_count (after (createCompleteTransaction 0 input) sample_db) 1
  = 2%nat.
Proof.
  cbv zeta.
  refine (proj1 (proj2 (proj1 (created_header_detail_rows sample_db _)
                          0 (journal_input "TXN-202312-001" 500000000 500000000)
                          ((1, _), _) _))).
  - apply (bool_decide_eq_true_1 (db_wf _)). vm_compute. reflexivity.
  - vm_compute. reflexivity.
Defined.

(** ** The income statement *)

(** C9 is not what the code does: [getIncomeStatementReport] is a
    placeholder and returns no row, whatever the accounts and their
    activity. *)
Theorem getIncomeStatementReport_returns_no_row filter s :
  outcome (getIncomeStatementReport filter) s = Returns [].
Proof. reflexivity. Qed.

(** With a revenue account that has activity in the period, the report is
    still empty. *)
Lemma getIncomeStatementReport_misses_revenue :
  let s1 :=
    perform 0
      (CreateCompleteTransaction
         (journal_input "TXN-202312-001" 500000000 500000000)) sample_db in
  acc_tipe <$> accounts s1 !! 2 = Some PENDAPATAN ∧
  sum_kredit s1 1 = 50000000 ∧
  outcome (getIncomeStatementReport (mkFilter 0 1701388800000 None None)) s1
  = Returns [].
Proof. cbv zeta. repeat split; vm_compute; reflexivity. Qed.

(** ** Transaction numbers *)

Lemma length_append (s1 s2 : string) :
  String.length (s1 +:+ s2) = (String.length s1 + String.length s2)%nat.
Proof. induction s1 as [|c s1 IH]; simpl; [done|]. now rewrite IH. Qed.

Lemma length_string_of_list_ascii (l : list ascii) :
  String.length (string_of_list_ascii l) = length l.
Proof. induction l as [|c l IH]; simpl; [done|]. now rewrite IH. Qed.

(** [padStart] pads and never cuts. *)
Lemma length_padStart n c s :
  String.length (padStart n c s) = (n `max` String.length s)%nat.
Proof.
  unfold padStart.
  rewrite length_append, length_string_of_list_ascii, length_replicate. lia.
Qed.

Lemma toString_length_below_1000 n :
  0 ≤ n < 1000 → (String.length (toString n) ≤ 3)%nat.
Proof.
  intros Hn.
  assert (forallb (λ k, String.length (toString (Z.of_nat k)) <=? 3)%nat
                  (seq 0 1000) = true) as Hall by (vm_compute; reflexivity).
  rewrite forallb_forall in Hall.
  specialize (Hall (Z.to_nat n)). rewrite Z2Nat.id in Hall by lia.
  apply Nat.leb_le, Hall, in_seq. lia.
Qed.

Lemma toString_length_month n :
  1 ≤ n ≤ 12 → (String.length (toString n) ≤ 2)%nat.
Proof.
  intros Hn.
  assert (n = 1 ∨ n = 2 ∨ n = 3 ∨ n = 4 ∨ n = 5 ∨ n = 6 ∨ n = 7 ∨ n = 8
          ∨ n = 9 ∨ n = 10 ∨ n = 11 ∨ n = 12) as Hcases by lia.
  repeat destruct Hcases as [->|Hcases]; try subst n; vm_compute; lia.
Qed.

(** The largest of the sequence numbers of [rows], and 0 when none has
    one: what the [forEach] with [Math.max] leaves in [maxSequence]. *)
Lemma fold_max_sequence (rows : list (Z * Header)) a :
  let m :=
    fold_left
      (λ maxSequence (t : Z * Header),
         match match_sequence (hdr_nomor_transaksi t.2) with
         | Some sequence => Z.max maxSequence sequence
         | None => maxSequence
         end) rows a in
  a ≤ m ∧
  (∀ t n, t ∈ rows → match_sequence (hdr_nomor_transaksi t.2) = Some n →
          n ≤ m) ∧
  (m = a ∨ ∃ t, t ∈ rows ∧ match_sequence (hdr_nomor_transaksi t.2) = Some m).
Proof.
  revert a. induction rows as [|t rows IH]; intros a; simpl.
  - split; [lia|]. split; [|now left]. intros t n Ht. by apply elem_of_nil in Ht.
  - destruct (match_sequence (hdr_nomor_transaksi t.2)) as [n|] eqn:Hn.
    + destruct (IH (Z.max a n)) as (Hle & Hub & Hmax).
      split; [lia|]. split.
      * intros t' n' Ht' Hn'. apply elem_of_cons in Ht' as [->|Ht'].
        -- rewrite Hn in Hn'. injection Hn' as <-. lia.
        -- now apply (Hub t').
      * destruct Hmax as [Hmax|(t' & Ht' & Hn')].
        -- destruct (Z.max_spec a n) as [[_ Hm]|[_ Hm]].
           ++ right. exists t. split; [now left|]. congruence.
           ++ left. congruence.
        -- right. exists t'. split; [now right|done].
    + destruct (IH a) as (Hle & Hub & Hmax).
      split; [done|]. split.
      * intros t' n' Ht' Hn'. apply elem_of_cons in Ht' as [->|Ht'].
        -- congruence.
        -- now apply (Hub t').
      * destruct Hmax as [Hmax|(t' & Ht' & Hn')]; [now left|].
        right. exists t'. split; [now right|done].
Qed.

Section transaction_numbers.

Context (getFullYear getMonth : Z → Z).

Local Abbreviation in_month_of := (in_month_of getFullYear getMonth).
Local Abbreviation largest_sequence := (largest_sequence getFullYear getMonth).

Lemma elem_of_sameMonthTransactions s tipe tanggal id h :
  (id, h) ∈ sameMonthTransactions getFullYear getMonth s tipe tanggal
  ↔ headers s !! id = Some h ∧ in_month_of tipe tanggal h.
Proof.
  unfold sameMonthTransactions, in_month_of.
  rewrite list_elem_of_filter, elem_of_map_to_list, map_lookup_filter_Some.
  simpl. tauto.
Qed.


End transaction_numbers.



(** ** The financial position report *)

Lemma Sorted_weaken {A} (R1 R2 : A → A → Prop) l :
  (∀ x y, R1 x y → R2 x y) → Sorted R1 l → Sorted R2 l.
Proof.
  intros HR. induction 1 as [|x l Hl IH Hx]; constructor; [done|].
  destruct Hx; constructor. now apply HR.
Qed.

Section sorting.

Context {A : Type} (compare : A → A → Z).
Context (compare_total : ∀ a b, compare a b ≤ 0 ∨ compare b a ≤ 0).

Lemma sort_insert_Permutation x l : sort_insert compare x l ≡ₚ x :: l.
Proof.
  induction l as [|y l IH]; simpl; [done|].
  destruct (compare x y <=? 0); [done|].
  rewrite IH. apply perm_swap.
Qed.

Lemma sort_Permutation l : sort compare l ≡ₚ l.
Proof.
  induction l as [|x l IH]; simpl; [done|].
  now rewrite sort_insert_Permutation, IH.
Qed.

Lemma sort_insert_Sorted x l :
  Sorted (λ a b, compare a b ≤ 0) l →
  Sorted (λ a b, compare a b ≤ 0) (sort_insert compare x l).
Proof.
  induction 1 as [|y l Hl IH Hy]; simpl.
  - repeat constructor.
  - destruct (compare x y <=? 0) eqn:E.
    + apply Z.leb_le in E. repeat constructor; done.
    + apply Z.leb_gt in E. constructor; [done|].
      destruct l as [|z l]; simpl.
      * constructor. destruct (compare_total x y); lia.
      * destruct (compare x z <=? 0).
        -- constructor. destruct (compare_total x y); lia.
        -- constructor. now inversion Hy.
Qed.

Lemma sort_Sorted l : Sorted (λ a b, compare a b ≤ 0) (sort compare l).
Proof.
  induction l as [|x l IH]; simpl; [constructor|].
  now apply sort_insert_Sorted.
Qed.

End sorting.

Section financial_position.

Context (localeCompare : string → string → Z).

Local Abbreviation compare_balance := (compare_balance localeCompare).
Local Abbreviation balance_order := (balance_order localeCompare).
Local Abbreviation getFinancialPositionReport :=
  (getFinancialPositionReport localeCompare).

Lemma compare_balance_order a b :
  compare_balance a b ≤ 0 ↔ balance_order a b.
Proof.
  unfold compare_balance, balance_order.
  destruct (typeOrder (account_tipe a) =? typeOrder (account_tipe b)) eqn:E;
    simpl.
  - apply Z.eqb_eq in E. split; [now right|]. intros [?|[_ ?]]; [lia|done].
  - apply Z.eqb_neq in E. split; [intros; left; lia|].
    intros [?|[? _]]; lia.
Qed.

Lemma balance_order_transitive :
  (∀ a b c, localeCompare a b ≤ 0 → localeCompare b c ≤ 0 →
            localeCompare a c ≤ 0) →
  ∀ a b c, balance_order a b → balance_order b c → balance_order a c.
Proof.
  intros Htrans a b c [Hab|[Hab Hkab]] [Hbc|[Hbc Hkbc]];
    try (left; lia).
  right. split; [lia|]. exact (Htrans _ _ _ Hkab Hkbc).
Qed.

(** The detail lines a row of the report sums: the lines of the account
    whose header is dated [sampai_tanggal] or before, posted or not. *)
Lemma elem_of_accountTransactions s accountId sampai k d :
  (k, d) ∈ accountTransactions s accountId sampai
  ↔ details s !! k = Some d ∧ det_account_id d = accountId ∧
    ∃ h, headers s !! det_header_id d = Some h ∧ hdr_tanggal h ≤ sampai.
Proof.
  unfold accountTransactions.
  rewrite elem_of_map_to_list, map_lookup_filter_Some. simpl.
  unfold dated_up_to. destruct (headers s !! det_header_id d) as [h|].
  - split.
    + intros (? & ? & ?). eauto.
    + intros (? & ? & h' & [= <-] & ?). done.
  - split; [tauto|]. intros (_ & _ & h & ? & _). done.
Qed.


End financial_position.

Lemma code_unit_compare_total a b :
  code_unit_compare a b ≤ 0 ∨ code_unit_compare b a ≤ 0.
Proof.
  unfold code_unit_compare. rewrite (String.compare_antisym b a).
  destruct (String.compare a b); simpl; lia.
Qed.

Lemma code_unit_compare_transitive a b c :
  code_unit_compare a b ≤ 0 → code_unit_compare b c ≤ 0 →
  code_unit_compare a c ≤ 0.
Proof.
  unfold code_unit_compare.
  destruct (String.compare a b) eqn:Hab; [| |lia]; intros _.
  - apply String.compare_eq_iff in Hab as ->. exact id.
  - destruct (String.compare b c) eqn:Hbc; [| |lia]; intros _.
    + apply String.compare_eq_iff in Hbc as <-. now rewrite Hab.
    + apply OrderedTypeEx.String_as_OT.cmp_lt in Hab, Hbc.
      pose proof (OrderedTypeEx.String_as_OT.lt_trans _ _ _ Hab Hbc) as Hac.
      apply OrderedTypeEx.String_as_OT.cmp_lt in Hac.
      unfold OrderedTypeEx.String_as_OT.cmp in Hac. now rewrite Hac.
Qed.


(** ** Header totals *)

(** C4 is not what the code does.  [createCompleteTransaction] writes the
    totals of the header from the amounts of the input and the detail rows
    from the same amounts, and the columns round each of them on its own:
    on a balanced entry of 0.125 + 0.125 against 0.25 the stored header
    says [total_debit] 0.25 while its detail rows, 0.13 and 0.13, sum to
    0.26. *)
Theorem createCompleteTransaction_totals_differ :
  let s1 := perform 0 (CreateCompleteTransaction eighths_input) sample_db in
  totals_match sample_db ∧
  PrimFloat.eqb (input_debit eighths_input) (input_kredit eighths_input)
  = true ∧
  (hdr_total_debit <$> headers s1 !! 1) = Some 25 ∧
  sum_debit s1 1 = 26 ∧
  (hdr_total_kredit <$> headers s1 !! 1) = Some 25 ∧
  sum_kredit s1 1 = 25.
Proof.
  cbv zeta. split; [|repeat split; vm_compute; reflexivity].
  intros id h Hh. vm_compute in Hh. discriminate.
Qed.

(** ** Posting sums that differ *)

(** C2 is not what the code does.  [validateTransactionBalance] compares
    the sums as JavaScript numbers, [Math.abs(totalDebit - totalKredit) <
    0.01], and in binary floating point 0.06 - 0.05 is
    0.009999999999999995: on a header whose detail rows sum to 0.06 of
    debit and 0.05 of kredit the validation returns true, and
    [postTransaction] does not throw and sets [is_posted]. *)
Theorem postTransaction_posts_unequal_sums :
  let s1 :=
    perform 0
      (CreateCompleteTransaction (journal_input "TXN-202312-001" 60 50))
      sample_db in
  (hdr_is_posted <$> headers s1 !! 1) = Some false ∧
  sum_debit s1 1 = 6 ∧
  sum_kredit s1 1 = 5 ∧
  outcome (validateTransactionBalance 1) s1 = Returns true ∧
  outcome (postTransaction 1 1) s1
  = Returns (1, mkHeader "TXN-202312-001" 1701388800000 JURNAL_UMUM
                         "Test Transaction" 6 5 (Some 1) 1 true 0 1) ∧
  (hdr_is_posted <$> headers (after (postTransaction 1 1) s1) !! 1)
  = Some true.
Proof. cbv zeta. repeat split; vm_compute; reflexivity. Qed.

(** ** The theorems on the stores of the tests *)

Lemma postTransaction_without_details_witness :
  let s1 :=
    perform 0
      (CreateTransactionHeader
         (mkHeaderInput "TXN-202312-002" 1701388800000 JURNAL_UMUM
                        "Header Only Transaction" None 1))
      sample_db in
  outcome (validateTransactionBalance 1) s1 = Returns true ∧
  hdr_is_posted <$> headers (after (postTransaction 1 1) s1) !! 1 = Some true.
Proof.
  cbv zeta.
  destruct (postTransaction_without_details 1 1
              (mkHeader "TXN-202312-002" 1701388800000 JURNAL_UMUM
                        "Header Only Transaction" 0 0 None 1 false 0 0)
              (perform 0
                 (CreateTransactionHeader
                    (mkHeaderInput "TXN-202312-002" 1701388800000 JURNAL_UMUM
                                   "Header Only Transaction" None 1))
                 sample_db))
    as (Hvalid & _ & Hstored & _).
  - vm_compute. reflexivity.
  - vm_compute. reflexivity.
  - split; [exact Hvalid|]. now rewrite Hstored.
Defined.

Lemma posted_transaction_content_immutable_witness :
  let s2 :=
    perform_all
      [(0, CreateCompleteTransaction
             (journal_input "TXN-202312-001" 500000000 500000000));
       (1, PostTransaction 1)]
      sample_db in
  outcome (deleteTransaction 1) s2 = Throws Cannot_delete_posted_transaction ∧
  after (deleteTransaction 1) s2 = s2.
Proof.
  cbv zeta.
  refine (proj2 (proj2 (proj2 (proj2
            (posted_transaction_content_immutable 0 1
               (mkHeader "TXN-202312-001" 1701388800000 JURNAL_UMUM
                         "Test Transaction" 50000000 50000000 (Some 1) 1
                         true 0 1) _ _ _))))).
  - vm_compute. reflexivity.
  - reflexivity.
Defined.

(** ** Detail rows and their headers *)

Section details_have_headers.

Local Abbreviation with_header := details_have_headers_with.

Lemma headers_kept_insert_header hid row :
  preserves (with_header hid) (insert_header row).
Proof.
  intros s [Hd Hh]. unfold insert_header. run_monad.
  destruct (nomor_in_use s _); simpl; [done|]. split.
  - intros k d Hk. simpl. apply lookup_insert_is_Some'. right.
    exact (Hd k d Hk).
  - simpl. apply lookup_insert_is_Some'. now right.
Qed.

Lemma headers_kept_update_header hid id f :
  preserves (with_header hid) (update_header id f).
Proof.
  intros s [Hd Hh]. unfold update_header. run_monad.
  destruct (headers s !! id) as [h|] eqn:E; [|done].
  destruct (_ && _); simpl; [done|]. split.
  - intros k d Hk. simpl. apply lookup_insert_is_Some'. right.
    exact (Hd k d Hk).
  - simpl. apply lookup_insert_is_Some'. now right.
Qed.

Lemma headers_kept_updateHeaderTotals hid now headerId :
  preserves (with_header hid) (updateHeaderTotals now headerId).
Proof.
  unfold updateHeaderTotals. apply preserves_get_bind. intros s Hs.
  apply after_bind; [now apply preserves_numeric_columns|intros _].
  apply preserves_bind; [|intros; apply preserves_ret].
  apply headers_kept_update_header.
Qed.

(** A detail row of the header [hid] may be inserted. *)
Lemma headers_kept_insert_detail hid row :
  det_header_id row = hid → preserves (with_header hid) (insert_detail row).
Proof.
  intros Hrow s [Hd Hh]. unfold insert_detail. run_monad. split; [|done].
  apply map_Forall_insert_2; [|done]. simpl. now rewrite Hrow.
Qed.

Lemma headers_kept_update_detail hid detail_id input :
  preserves (with_header hid) (update_detail detail_id input).
Proof.
  unfold update_detail.
  apply preserves_bind; [apply preserves_throw_if|intros _].
  apply preserves_bind; [apply preserves_numeric_columns|intros _].
  apply preserves_get_bind. intros s [Hd Hh].
  destruct (details s !! detail_id) as [d|] eqn:E; [|done].
  run_monad. split; [|done].
  apply map_Forall_insert_2; [|done]. simpl. exact (Hd detail_id d E).
Qed.

Lemma headers_kept_delete_detail hid detail_id :
  preserves (with_header hid) (delete_detail detail_id).
Proof.
  intros s [Hd Hh]. unfold delete_detail. run_monad. split; [|done].
  now apply map_Forall_delete.
Qed.

Lemma with_header_weaken hid s : with_header hid s → details_have_headers s.
Proof. now intros [? _]. Qed.

Lemma headers_kept_createTransactionHeader now input :
  preserves details_have_headers (createTransactionHeader now input).
Proof.
  intros s Hd. unfold after. rewrite createTransactionHeader_steps. cbv zeta.
  destruct (bool_decide (_ ∉ _)); [done|].
  destruct (outcome (verify_relation _) s); [|done].
  destruct (nomor_in_use s _); [done|]. simpl.
  intros k d Hk. simpl. apply lookup_insert_is_Some'. right. exact (Hd k d Hk).
Qed.

Lemma store_rows_Forall (Q : Detail → Prop) k rows (m : gmap Z Detail) :
  map_Forall (λ _, Q) m → Forall Q rows →
  map_Forall (λ _, Q) (store_rows k rows m).
Proof.
  intros Hm Hrows. revert k m Hm.
  induction Hrows as [|r rows Hr Hrows IH]; intros k m Hm; [done|].
  change (store_rows k (r :: rows) m)
    with (store_rows (k + 1) rows (<[k:=r]> m)).
  apply IH. now apply map_Forall_insert_2.
Qed.

Lemma headers_kept_createCompleteTransaction now input :
  preserves details_have_headers (createCompleteTransaction now input).
Proof.
  intros s Hd. unfold after. rewrite createCompleteTransaction_steps.
  destruct (negb _); [done|].
  destruct (bool_decide (_ ∉ _)); [done|].
  destruct (outcome (verify_relation _) s); [|done].
  destruct (outcome (verify_accounts _) s); [|done].
  destruct (negb (totals_fit input)); [done|].
  destruct (nomor_in_use s _); [done|]. cbv zeta.
  assert (map_Forall
            (λ _ d, is_Some
                      (<[next_header_id s := header_values now input]>
                         (headers s) !! det_header_id d))
            (details s)) as Hd'.
  { intros k d Hk. apply lookup_insert_is_Some'. right. exact (Hd k d Hk). }
  destruct (negb (lines_fit input)); [exact Hd'|].
  destruct (in_details input) as [|d ds] eqn:Hin; [exact Hd'|].
  unfold details_have_headers. simpl.
  apply (store_rows_Forall
           (λ d, is_Some
                   (<[next_header_id s := header_values now input]>
                      (headers s) !! det_header_id d))); [exact Hd'|].
  unfold detail_values. apply Forall_fmap, Forall_true. intros x. simpl.
  apply lookup_insert_is_Some'. now left.
Qed.

Lemma headers_kept_addTransactionDetail now input :
  preserves details_have_headers (addTransactionDetail now input).
Proof.
  unfold addTransactionDetail. apply preserves_get_bind. intros s Hd.
  destruct (headers s !! in_header_id input) as [h|] eqn:Hh; [|done].
  apply (with_header_weaken (in_header_id input)).
  assert (with_header (in_header_id input) s) as Hs by (split; [done|eauto]).
  apply after_bind; [now rewrite after_throw_if|intros _].
  apply preserves_bind; [apply preserves_throw_if|intros _].
  apply preserves_bind; [apply preserves_numeric_columns|intros _].
  apply preserves_bind; [now apply headers_kept_insert_detail|intros created].
  apply preserves_bind; [apply headers_kept_updateHeaderTotals|intros _].
  apply preserves_ret.
Qed.

Lemma headers_kept_updateTransactionHeader now id input :
  preserves details_have_headers (updateTransactionHeader now id input).
Proof.
  unfold updateTransactionHeader. apply preserves_get_bind. intros s Hd.
  destruct (headers s !! id) as [h|] eqn:Hh; [|done].
  apply (with_header_weaken id).
  assert (with_header id s) as Hs by (split; [done|eauto]).
  apply after_bind; [now rewrite after_throw_if|intros _].
  apply preserves_bind.
  { destruct (truthy _); [apply preserves_throw_if|apply preserves_ret]. }
  intros _.
  apply preserves_bind; [apply preserves_verify_relation|intros _].
  apply preserves_bind; [apply headers_kept_update_header|intros result].
  destruct result; [apply preserves_throw|apply preserves_ret].
Qed.

Lemma headers_kept_updateTransactionDetail now detail_id input :
  preserves details_have_headers (updateTransactionDetail now detail_id input).
Proof.
  unfold updateTransactionDetail. apply preserves_get_bind. intros s Hd.
  destruct (details s !! detail_id) as [d|]; [|done].
  destruct (headers s !! det_header_id d) as [h|] eqn:Hh; [|done].
  apply (with_header_weaken (det_header_id d)).
  assert (with_header (det_header_id d) s) as Hs by (split; [done|eauto]).
  apply after_bind; [now rewrite after_throw_if|intros _].
  apply preserves_bind.
  { destruct (truthy _); [apply preserves_throw_if|apply preserves_ret]. }
  intros _.
  apply preserves_bind; [apply headers_kept_update_detail|intros result].
  apply preserves_bind; [apply headers_kept_updateHeaderTotals|intros _].
  destruct result; [apply preserves_throw|apply preserves_ret].
Qed.

Lemma headers_kept_set_header id f :
  preserves details_have_headers (update_header id f).
Proof.
  intros s Hd. unfold update_header. run_monad.
  destruct (headers s !! id) as [h|] eqn:E; [|done].
  destruct (_ && _); simpl; [done|].
  intros k d Hk. simpl. apply lookup_insert_is_Some'. right.
  exact (Hd k d Hk).
Qed.

Lemma headers_kept_postTransaction now id :
  preserves details_have_headers (postTransaction now id).
Proof.
  unfold postTransaction.
  apply preserves_bind; [apply preserves_validateTransactionBalance|].
  intros balanced.
  apply preserves_bind; [apply preserves_throw_if|intros _].
  apply preserves_bind; [apply headers_kept_set_header|intros result].
  destruct result; [apply preserves_throw|apply preserves_ret].
Qed.

Lemma headers_kept_unpostTransaction now id :
  preserves details_have_headers (unpostTransaction now id).
Proof.
  unfold unpostTransaction.
  apply preserves_bind; [apply headers_kept_set_header|intros result].
  destruct result; [apply preserves_throw|apply preserves_ret].
Qed.

Lemma headers_kept_deleteTransactionDetail now detail_id :
  preserves details_have_headers (deleteTransactionDetail now detail_id).
Proof.
  unfold deleteTransactionDetail. apply preserves_get_bind. intros s Hd.
  destruct (details s !! detail_id) as [d|]; [|done].
  destruct (headers s !! det_header_id d) as [h|] eqn:Hh; [|done].
  apply (with_header_weaken (det_header_id d)).
  assert (with_header (det_header_id d) s) as Hs by (split; [done|eauto]).
  apply after_bind; [now rewrite after_throw_if|intros _].
  apply preserves_bind; [apply headers_kept_delete_detail|intros _].
  apply preserves_bind; [apply headers_kept_updateHeaderTotals|intros _].
  apply preserves_ret.
Qed.

(** [deleteTransaction] deletes the detail rows of the header before the
    header. *)
Lemma deleteTransaction_run id s :
  deleteTransaction id s
  = match headers s !! id with
    | None => (Throws Transaction_not_found, s)
    | Some existing =>
        if hdr_is_posted existing
        then (Throws Cannot_delete_posted_transaction, s)
        else (Returns true,
              mkDb (users s) (relations s) (accounts s)
                   (delete id (headers s))
                   (filter (λ r, det_header_id r.2 ≠ id) (details s))
                   (next_header_id s) (next_detail_id s))
    end.
Proof.
  unfold deleteTransaction. run_monad.
  destruct (headers s !! id) as [h|]; [|done]. now destruct (hdr_is_posted h).
Qed.

Lemma headers_kept_deleteTransaction id :
  preserves details_have_headers (deleteTransaction id).
Proof.
  intros s Hd. unfold after. rewrite deleteTransaction_run.
  destruct (headers s !! id) as [h|]; [|done].
  destruct (hdr_is_posted h); [done|]. simpl.
  intros k d [Hk Hne]%map_lookup_filter_Some. simpl in *.
  rewrite lookup_delete_ne by done. exact (Hd k d Hk).
Qed.

End details_have_headers.

(** X1.  Every exported operation keeps the detail rows with their headers,
    also when it throws after it wrote: the schema declares no foreign key,
    the handlers alone keep a detail row from losing its header. *)
Theorem details_keep_their_headers ops s :
  details_have_headers s → details_have_headers (perform_all ops s).
Proof.
  revert s. induction ops as [|[now op] ops IH]; intros s Hs; [done|].
  simpl. apply IH. destruct op; simpl.
  - now apply headers_kept_createTransactionHeader.
  - now apply headers_kept_createCompleteTransaction.
  - now apply headers_kept_addTransactionDetail.
  - now apply headers_kept_updateTransactionHeader.
  - now apply headers_kept_updateTransactionDetail.
  - now apply headers_kept_postTransaction.
  - now apply headers_kept_unpostTransaction.
  - now apply headers_kept_deleteTransactionDetail.
  - now apply headers_kept_deleteTransaction.
Qed.

Lemma details_keep_their_headers_witness :
  details_have_headers
    (perform_all
       [(0, CreateCompleteTransaction
              (journal_input "TXN-202312-001" 500000000 500000000));
        (1, DeleteTransactionDetail 2);
        (2, CreateTransactionHeader
              (mkHeaderInput "TXN-202312-002" 1701388800000 JURNAL_UMUM
                             "Header Only Transaction" None 1));
        (3, DeleteTransaction 1)]
       sample_db).
Proof.
  apply details_keep_their_headers.
  apply (bool_decide_eq_true_1 (details_have_headers _)).
  vm_compute. reflexivity.
Defined.

(** ** Reading transactions *)

Lemma elem_of_details_of s headerId k d :
  (k, d) ∈ details_of s headerId
  ↔ details s !! k = Some d ∧ det_header_id d = headerId.
Proof.
  unfold details_of. now rewrite elem_of_map_to_list, map_lookup_filter_Some.
Qed.

Lemma NoDup_details_of s headerId : NoDup (details_of s headerId).*1.
Proof. apply NoDup_fst_map_to_list. Qed.

(** The rows of a query in the order the comparison stands for: when the
    order is transitive, every row is in order with every later one. *)
Lemma sort_StronglySorted {A} (R : relation A) (compare : A → A → Z) l :
  Transitive R →
  (∀ a b, R a b ∨ R b a) →
  (∀ a b, compare a b ≤ 0 ↔ R a b) →
  StronglySorted R (sort compare l).
Proof.
  intros Htrans Htotal Hc. apply Sorted_StronglySorted; [done|].
  eapply Sorted_weaken; [|apply sort_Sorted].
  - intros a b. apply Hc.
  - intros a b. rewrite !Hc. apply Htotal.
Qed.

Lemma sort_by_urutan_asc l :
  StronglySorted (λ a b : Z * Detail, det_urutan a.2 ≤ det_urutan b.2)
                 (sort by_urutan_asc l).
Proof.
  apply sort_StronglySorted.
  - intros a b c. lia.
  - intros a b. lia.
  - intros a b. unfold by_urutan_asc. lia.
Qed.

Lemma fmap_td_id (l : list (Z * Detail)) : td_id <$> (to_detail <$> l) = l.*1.
Proof. induction l as [|x l IH]; [done|]. now rewrite !fmap_cons, IH. Qed.

Lemma fmap_th_id (l : list (Z * Header)) : th_id <$> (to_header <$> l) = l.*1.
Proof. induction l as [|x l IH]; [done|]. now rewrite !fmap_cons, IH. Qed.


(** ** Deleting a transaction *)

Lemma details_of_after_delete id id' (m : gmap Z Detail) :
  id' ≠ id →
  filter (λ r : Z * Detail, det_header_id r.2 = id')
         (filter (λ r : Z * Detail, det_header_id r.2 ≠ id) m)
  = filter (λ r : Z * Detail, det_header_id r.2 = id') m.
Proof.
  intros Hne. rewrite map_filter_filter. apply map_filter_ext.
  intros k d _. simpl. split; [tauto|]. intros Hd. split; [done|congruence].
Qed.


(** ** Reading a transaction that was created *)

Lemma filter_store_rows_Permutation headerId k rows (m : gmap Z Detail) :
  Forall (λ d, det_header_id d = headerId) rows →
  (∀ j, k ≤ j → m !! j = None) →
  map_to_list (filter (λ r : Z * Detail, det_header_id r.2 = headerId)
                      (store_rows k rows m))
  ≡ₚ number_from k rows
     ++ map_to_list (filter (λ r : Z * Detail, det_header_id r.2 = headerId) m).
Proof.
  intros Hrows. revert k m.
  induction Hrows as [|r rows Hr Hrows IH]; intros k m Hfresh; [done|].
  change (store_rows k (r :: rows) m)
    with (store_rows (k + 1) rows (<[k:=r]> m)).
  rewrite IH.
  - rewrite map_filter_insert_True by done.
    rewrite map_to_list_insert.
    + simpl. now rewrite Permutation_middle.
    + apply map_lookup_filter_None_2. left. apply Hfresh. lia.
  - intros j Hj. rewrite lookup_insert_ne by lia. apply Hfresh. lia.
Qed.

(** X4.  A transaction that [createCompleteTransaction] returned can be read
    by its key: [getTransactionById] gives the header that was returned, and
    the detail rows that were returned, in the order of [urutan]. *)
Theorem createCompleteTransaction_then_getTransactionById now input s r :
  db_wf s →
  outcome (createCompleteTransaction now input) s = Returns r →
  ∃ rows,
    getTransactionById r.1.1 (after (createCompleteTransaction now input) s)
    = Some (mkCompleteTransaction (to_header r.1) rows) ∧
    rows ≡ₚ to_detail <$> r.2 ∧
    StronglySorted (λ a b, td_urutan a ≤ td_urutan b) rows.
Proof.
  intros Hwf. unfold outcome, after.
  rewrite createCompleteTransaction_steps.
  destruct (negb _); [done|].
  destruct (bool_decide (_ ∉ _)); [done|].
  destruct (outcome (verify_relation _) s); [|done].
  destruct (outcome (verify_accounts _) s); [|done].
  destruct (negb (totals_fit input)); [done|].
  destruct (nomor_in_use s _); [done|]. cbv zeta.
  destruct (negb (lines_fit input)); [done|].
  destruct (in_details input) as [|d ds] eqn:Hd; [done|].
  intros [= <-]. unfold getTransactionById. simpl.
  rewrite lookup_insert_eq. eexists. split; [reflexivity|]. split.
  - rewrite sort_Permutation. unfold details_of. simpl.
    rewrite (filter_store_rows_Permutation (next_header_id s)).
    + rewrite details_of_fresh by (done || lia).
      now rewrite map_to_list_empty, app_nil_r.
    + unfold detail_values. apply Forall_fmap, Forall_true. done.
    + intros j Hj. destruct (details s !! j) as [x|] eqn:Hx; [|done].
      destruct Hwf as (_ & Hk & _). specialize (Hk j x Hx). simpl in Hk. lia.
  - apply (StronglySorted_fmap _ (λ a b : Z * Detail,
                                    det_urutan a.2 ≤ det_urutan b.2)).
    + now intros x y.
    + apply sort_by_urutan_asc.
Qed.

Lemma createCompleteTransaction_then_getTransactionById_witness :
  let input := journal_input "TXN-202312-001" 500000000 500000000 in
  ∃ rows,
    getTransactionById 1 (after (createCompleteTransaction 0 input) sample_db)
    = Some (mkCompleteTransaction (to_header (1, header_values 0 input)) rows) ∧
    rows ≡ₚ to_detail <$> number_from 1 (detail_values 0 1 input).
Proof.
  cbv zeta.
  set (input := journal_input "TXN-202312-001" 500000000 500000000).
  destruct (createCompleteTransaction_then_getTransactionById
              0 input sample_db
              ((1, header_values 0 input),
               number_from 1 (detail_values 0 1 input)))
    as (rows & Hget & Hrows & _).
  - apply (bool_decide_eq_true_1 (db_wf _)). vm_compute. reflexivity.
  - vm_compute. reflexivity.
  - exists rows. split; [exact Hget|exact Hrows].
Defined.

(** ** Posting and taking back *)

Lemma unpostTransaction_run now id s :
  unpostTransaction now id s
  = match headers s !! id with
    | Some h =>
        (Returns (id, set_posted now false h),
         with_headers (<[id := set_posted now false h]> (headers s)) s)
    | None => (Throws Transaction_not_found, s)
    end.
Proof.
  unfold unpostTransaction, bind.
  destruct (headers s !! id) as [h|] eqn:Hh.
  - now rewrite (update_header_run id _ h).
  - now rewrite update_header_missing.
Qed.



(** ** The totals of a header after its rows change *)

Lemma updateHeaderTotals_run now headerId s :
  updateHeaderTotals now headerId s
  = if negb (forallb Amount.fits
                     [stored_debit s headerId; stored_kredit s headerId])
    then (Throws Numeric_field_overflow, s)
    else match headers s !! headerId with
         | Some h =>
             (Returns tt,
              with_headers
                (<[headerId :=
                     with_totals now
                       (Amount.to_numeric (stored_debit s headerId))
                       (Amount.to_numeric (stored_kredit s headerId)) h]>
                   (headers s)) s)
         | None => (Returns tt, s)
         end.
Proof.
  unfold updateHeaderTotals, bind at 1, get at 1.
  fold (stored_debit s headerId) (stored_kredit s headerId).
  unfold bind at 1, numeric_columns, throw_if.
  destruct (negb _); [done|]. unfold ret at 1. unfold bind.
  destruct (headers s !! headerId) as [h|] eqn:Hh.
  - now rewrite (update_header_run headerId _ h).
  - now rewrite update_header_missing.
Qed.

(** When [updateHeaderTotals] returns on a stored header, the header
    carries the totals of its rows. *)
Lemma updateHeaderTotals_recomputes now headerId s :
  is_Some (headers s !! headerId) →
  outcome (updateHeaderTotals now headerId) s = Returns tt →
  totals_recomputed (after (updateHeaderTotals now headerId) s) headerId.
Proof.
  intros [h Hh]. unfold outcome, after. rewrite updateHeaderTotals_run, Hh.
  destruct (negb _); [done|]. intros _. simpl.
  eexists. split; [apply lookup_insert_eq|]. now split.
Qed.

(** [addTransactionDetail] step by step: the checks in the order of the
    source, the insert, and the totals. *)
Lemma addTransactionDetail_steps now input s :
  addTransactionDetail now input s
  = match headers s !! in_header_id input with
    | None => (Throws Transaction_header_not_found, s)
    | Some h =>
        if hdr_is_posted h
        then (Throws Cannot_add_detail_to_posted_transaction, s)
        else if bool_decide (accounts s !! in_account_id input = None)
        then (Throws Account_not_found, s)
        else if negb (forallb Amount.fits [in_debit input; in_kredit input])
        then (Throws Numeric_field_overflow, s)
        else
          let row :=
            mkDetail (in_header_id input) (in_account_id input)
                     (in_detail_deskripsi input)
                     (Amount.to_numeric (in_debit input))
                     (Amount.to_numeric (in_kredit input))
                     (in_urutan input) now in
          let s1 :=
            mkDb (users s) (relations s) (accounts s) (headers s)
                 (<[next_detail_id s := row]> (details s))
                 (next_header_id s) (next_detail_id s + 1) in
          match updateHeaderTotals now (in_header_id input) s1 with
          | (Returns _, s2) => (Returns (next_detail_id s, row), s2)
          | (Throws e, s2) => (Throws e, s2)
          end
    end.
Proof.
  unfold addTransactionDetail, bind at 1, get at 1.
  destruct (headers s !! in_header_id input) as [h|]; [|done].
  unfold bind at 1, throw_if at 1.
  destruct (hdr_is_posted h); [done|]. unfold ret at 1.
  unfold bind at 1, throw_if at 1.
  destruct (bool_decide _); [done|]. unfold ret at 1.
  unfold bind at 1, numeric_columns, throw_if at 1.
  destruct (negb _); [done|]. unfold ret at 1.
  unfold bind at 1, insert_detail. run_monad.
  now destruct (updateHeaderTotals _ _ _) as [[[]|e] s2].
Qed.

(** [updateTransactionDetail] step by step. *)
Lemma updateTransactionDetail_steps now id input s :
  updateTransactionDetail now id input s
  = match details s !! id with
    | None => (Throws Transaction_detail_not_found, s)
    | Some d =>
        match headers s !! det_header_id d with
        | None => (Throws Transaction_detail_not_found, s)
        | Some h =>
            if hdr_is_posted h
            then (Throws Cannot_update_detail_of_posted_transaction, s)
            else if truthy (upd_account_id input)
                    && bool_decide
                         (accounts s !! default 0 (upd_account_id input)
                          = None)
            then (Throws Account_not_found, s)
            else if no_values input
            then (Throws No_values_to_set, s)
            else if negb (forallb Amount.fits
                                  (option_list (upd_debit input)
                                   ++ option_list (upd_kredit input)))
            then (Throws Numeric_field_overflow, s)
            else
              let s1 :=
                with_details (<[id := set_detail input d]> (details s)) s in
              match updateHeaderTotals now (det_header_id d) s1 with
              | (Returns _, s2) => (Returns (id, set_detail input d), s2)
              | (Throws e, s2) => (Throws e, s2)
              end
        end
    end.
Proof.
  unfold updateTransactionDetail, bind at 1, get at 1.
  destruct (details s !! id) as [d|] eqn:Hd; [|done].
  destruct (headers s !! det_header_id d) as [h|]; [|done].
  unfold bind at 1, throw_if at 1.
  destruct (hdr_is_posted h); [done|]. unfold ret at 1.
  unfold bind at 1.
  destruct (truthy (upd_account_id input)); simpl.
  - unfold throw_if at 1. destruct (bool_decide _); [done|]. unfold ret at 1.
    unfold bind at 1, update_detail at 1. unfold bind at 1, throw_if at 1.
    destruct (no_values input); [done|]. unfold ret at 1.
    unfold bind at 1, numeric_columns, throw_if at 1.
    destruct (negb _); [done|]. unfold ret at 1.
    unfold bind at 1, get at 1. rewrite Hd. run_monad.
    now destruct (updateHeaderTotals _ _ _) as [[[]|e] s2].
  - unfold ret at 1.
    unfold bind at 1, update_detail at 1. unfold bind at 1, throw_if at 1.
    destruct (no_values input); [done|]. unfold ret at 1.
    unfold bind at 1, numeric_columns, throw_if at 1.
    destruct (negb _); [done|]. unfold ret at 1.
    unfold bind at 1, get at 1. rewrite Hd. run_monad.
    now destruct (updateHeaderTotals _ _ _) as [[[]|e] s2].
Qed.

(** [deleteTransactionDetail] step by step. *)
Lemma deleteTransactionDetail_steps now id s :
  deleteTransactionDetail now id s
  = match details s !! id with
    | None => (Throws Transaction_detail_not_found, s)
    | Some d =>
        match headers s !! det_header_id d with
        | None => (Throws Transaction_detail_not_found, s)
        | Some h =>
            if hdr_is_posted h
            then (Throws Cannot_delete_detail_from_posted_transaction, s)
            else
              let s1 := with_details (delete id (details s)) s in
              match updateHeaderTotals now (det_header_id d) s1 with
              | (Returns _, s2) => (Returns true, s2)
              | (Throws e, s2) => (Throws e, s2)
              end
        end
    end.
Proof.
  unfold deleteTransactionDetail, bind at 1, get at 1.
  destruct (details s !! id) as [d|] eqn:Hd; [|done].
  destruct (headers s !! det_header_id d) as [h|]; [|done].
  unfold bind at 1, throw_if at 1.
  destruct (hdr_is_posted h); [done|]. unfold ret at 1.
  unfold bind at 1, delete_detail. run_monad.
  now destruct (updateHeaderTotals _ _ _) as [[[]|e] s2].
Qed.



(** ** Updating a header *)

Lemma update_header_steps id f h s :
  headers s !! id = Some h →
  update_header id f s
  = if negb (String.eqb (hdr_nomor_transaksi (f h)) (hdr_nomor_transaksi h))
       && nomor_in_use s (hdr_nomor_transaksi (f h))
    then (Throws Unique_violation_nomor_transaksi, s)
    else (Returns [(id, f h)], with_headers (<[id := f h]> (headers s)) s).
Proof.
  intros Hh. unfold update_header, bind at 1, get at 1. rewrite Hh.
  unfold bind at 1, throw_if. now destruct (_ && _).
Qed.

(** [updateTransactionHeader] step by step. *)
Lemma updateTransactionHeader_steps now id input s :
  updateTransactionHeader now id input s
  = match headers s !! id with
    | None => (Throws Transaction_not_found, s)
    | Some h =>
        if hdr_is_posted h
        then (Throws Cannot_update_posted_transaction, s)
        else if truthy (upd_user_id input)
                && bool_decide (default 0 (upd_user_id input) ∉ users s)
        then (Throws User_not_found, s)
        else
          match outcome
                  (verify_relation (default None (upd_relation_id input))) s
          with
          | Throws e => (Throws e, s)
          | Returns _ =>
              let h' := set_header now input h in
              if negb (String.eqb (hdr_nomor_transaksi h')
                                  (hdr_nomor_transaksi h))
                 && nomor_in_use s (hdr_nomor_transaksi h')
              then (Throws Unique_violation_nomor_transaksi, s)
              else (Returns (id, h'),
                    with_headers (<[id := h']> (headers s)) s)
          end
    end.
Proof.
  unfold updateTransactionHeader, bind at 1, get at 1.
  destruct (headers s !! id) as [h|] eqn:Hh; [|done].
  unfold bind at 1, throw_if at 1.
  destruct (hdr_is_posted h); [done|]. unfold ret at 1.
  unfold bind at 1.
  assert (∀ rest : M (Z * Header),
            (let (r, s') :=
               verify_relation (default None (upd_relation_id input)) s in
             match r with
             | Returns _ => rest s'
             | Throws e => (Throws e, s')
             end)
            = match outcome
                      (verify_relation (default None (upd_relation_id input)))
                      s with
              | Throws e => (Throws e, s)
              | Returns _ => rest s
              end) as Hrel.
  { intros rest.
    pose proof (after_verify_relation
                  (default None (upd_relation_id input)) s) as Hr.
    unfold after in Hr. unfold outcome.
    now destruct (verify_relation _ s) as [[[]|e] s']; simpl in Hr; subst s'. }
  destruct (truthy (upd_user_id input)); simpl.
  - unfold throw_if at 1. destruct (bool_decide _); [done|]. unfold ret at 1.
    unfold bind at 1. rewrite Hrel.
    destruct (outcome (verify_relation _) s); [|done].
    unfold bind at 1. rewrite (update_header_steps id _ h) by done.
    now destruct (_ && _).
  - unfold ret at 1. unfold bind at 1. rewrite Hrel.
    destruct (outcome (verify_relation _) s); [|done].
    unfold bind at 1. rewrite (update_header_steps id _ h) by done.
    now destruct (_ && _).
Qed.

(** X7.  [updateTransactionHeader] cannot change an amount or the posting:
    whatever the input and whether it returns or throws, the detail rows stay
    as they are, no header appears or disappears, every header keeps its
    totals, [is_posted] and [created_at], and every header but the one with
    the key [id] stays as it is. *)
Theorem updateTransactionHeader_keeps_amounts now id input s :
  let s' := after (updateTransactionHeader now id input) s in
  details s' = details s ∧
  ∀ id',
    match headers s' !! id' with
    | None => headers s !! id' = None
    | Some h' =>
        ∃ h, headers s !! id' = Some h ∧
             hdr_total_debit h' = hdr_total_debit h ∧
             hdr_total_kredit h' = hdr_total_kredit h ∧
             hdr_is_posted h' = hdr_is_posted h ∧
             hdr_created_at h' = hdr_created_at h ∧
             (id' ≠ id → h' = h)
    end.
Proof.
  cbv zeta. unfold after. rewrite updateTransactionHeader_steps.
  assert (∀ id',
            match headers s !! id' with
            | None => headers s !! id' = None
            | Some h' =>
                ∃ h, headers s !! id' = Some h ∧
                     hdr_total_debit h' = hdr_total_debit h ∧
                     hdr_total_kredit h' = hdr_total_kredit h ∧
                     hdr_is_posted h' = hdr_is_posted h ∧
                     hdr_created_at h' = hdr_created_at h ∧
                     (id' ≠ id → h' = h)
            end) as Hsame.
  { intros id'. destruct (headers s !! id') as [h|]; [|done]. now exists h. }
  destruct (headers s !! id) as [h|] eqn:Hh; [|done].
  destruct (hdr_is_posted h); [done|].
  destruct (_ && _); [done|].
  destruct (outcome (verify_relation _) s); [|done]. cbv zeta.
  destruct (_ && _); [done|]. simpl. split; [done|].
  intros id'. destruct (decide (id' = id)) as [->|Hne].
  - rewrite lookup_insert_eq. now exists h.
  - rewrite lookup_insert_ne by done. apply Hsame.
Qed.

(** ** Lists of headers *)

Lemma elem_of_select_headers where_ orderBy s r :
  r ∈ select_headers where_ orderBy s
  ↔ headers s !! r.1 = Some r.2 ∧ where_ r = true.
Proof.
  unfold select_headers.
  rewrite sort_Permutation, list_elem_of_filter. destruct r as [k h].
  rewrite elem_of_map_to_list. simpl. tauto.
Qed.

Lemma NoDup_select_headers where_ orderBy s :
  NoDup (select_headers where_ orderBy s).*1.
Proof.
  unfold select_headers. rewrite sort_Permutation.
  apply (sublist_NoDup _ (map_to_list (headers s)).*1).
  - apply NoDup_fst_map_to_list.
  - apply fmap_sublist, sublist_filter.
Qed.

Lemma elem_of_to_header where_ orderBy s t :
  t ∈ to_header <$> select_headers where_ orderBy s
  ↔ ∃ id h, headers s !! id = Some h ∧ where_ (id, h) = true ∧
            t = to_header (id, h).
Proof.
  rewrite list_elem_of_fmap. split.
  - intros ([id h] & -> & [Hh Hw]%elem_of_select_headers). eauto.
  - intros (id & h & Hh & Hw & ->). exists (id, h). split; [done|].
    now apply elem_of_select_headers.
Qed.

Lemma filter_all {A} (l : list A) : filter (λ _ : A, true = true) l = l.
Proof.
  induction l as [|x l IH]; [done|].
  rewrite filter_cons_True by done. now rewrite IH.
Qed.

Lemma NoDup_fmap_inj {A B} (f : A → B) (l : list A) x y :
  NoDup (f <$> l) → x ∈ l → y ∈ l → f x = f y → x = y.
Proof.
  induction l as [|z l IH]; intros Hnd Hx Hy Hf.
  - by apply elem_of_nil in Hx.
  - rewrite fmap_cons in Hnd. apply NoDup_cons in Hnd as [Hz Hnd].
    apply elem_of_cons in Hx as [->|Hx]; apply elem_of_cons in Hy as [->|Hy].
    + done.
    + exfalso. apply Hz. rewrite Hf. now apply list_elem_of_fmap_2.
    + exfalso. apply Hz. rewrite <- Hf. now apply list_elem_of_fmap_2.
    + now apply IH.
Qed.

Lemma sort_by_created_at_desc l : newest_first (sort by_created_at_desc l).
Proof.
  apply sort_StronglySorted.
  - intros a b c. lia.
  - intros a b. lia.
  - intros a b. unfold by_created_at_desc. lia.
Qed.

(** Where no two headers were created at the same time, the order of
    [desc(created_at)] is one order. *)
Lemma select_all_headers all s :
  NoDup (created_ats s) →
  all ≡ₚ map_to_list (headers s) →
  newest_first all →
  select_headers (λ _, true) by_created_at_desc s = all.
Proof.
  intros Hdistinct Hall Hsorted. unfold select_headers. rewrite filter_all.
  apply (StronglySorted_unique_strong
           (λ a b : Z * Header, hdr_created_at b.2 ≤ hdr_created_at a.2)).
  - intros x1 x2 Hx1 Hx2 H12 H21.
    rewrite sort_Permutation in Hx1. rewrite Hall in Hx2.
    apply (NoDup_fmap_inj (λ r : Z * Header, hdr_created_at r.2)
                          (map_to_list (headers s))); [done..|lia].
  - apply sort_by_created_at_desc.
  - exact Hsorted.
  - now rewrite sort_Permutation.
Qed.

(** X8.  [getTransactionHeaders] cuts the headers, newest first, into pages of
    [limit] rows: where no two headers were created at the same time and [all]
    lists the stored headers newest first, the page [page], counted from 1, is
    the rows of [all] from [(page - 1) * limit] on, at most [limit] of them;
    with no argument it is the first 50 rows. A page below 1 of a limit above
    0 is an offset below 0, and the query fails. *)
Theorem getTransactionHeaders_pages all s :
  NoDup (created_ats s) →
  all ≡ₚ map_to_list (headers s) →
  newest_first all →
  (∀ page limit,
     1 ≤ page → 0 ≤ limit → (page - 1) * limit < 2 ^ 53 →
     getTransactionHeaders (Some page) (Some limit) s
     = inr (to_header <$> page_of page limit all) ∧
     (length (page_of page limit all) ≤ Z.to_nat limit)%nat) ∧
  getTransactionHeaders None None s = inr (to_header <$> take 50 all) ∧
  (∀ page limit,
     page < 1 → 0 < limit →
     getTransactionHeaders (Some page) (Some limit) s
     = inl OFFSET_must_not_be_negative).
Proof.
  intros Hdistinct Hall Hsorted. unfold getTransactionHeaders, limit_offset.
  rewrite (select_all_headers all) by done. simpl.
  split; [|split].
  - intros page limit Hpage Hlimit _.
    destruct ((page - 1) * limit <? 0) eqn:Eo; [apply Z.ltb_lt in Eo; nia|].
    destruct (limit <? 0) eqn:El; [apply Z.ltb_lt in El; lia|].
    split; [done|]. unfold page_of. rewrite length_take. lia.
  - now rewrite drop_0.
  - intros page limit Hpage Hlimit.
    destruct ((page - 1) * limit <? 0) eqn:Eo; [done|].
    apply Z.ltb_ge in Eo. nia.
Qed.

Lemma getTransactionHeaders_pages_witness :
  let first :=
    mkHeader "TXN-202312-001" 1701388800000 JURNAL_UMUM "First" 0 0 None 1
             false 0 0 in
  let second :=
    mkHeader "TXN-202312-002" 1701475200000 PENERIMAAN_DANA "Second" 0 0
             (Some 1) 1 false 1 1 in
  getTransactionHeaders (Some 1) (Some 1) two_headers_db
  = inr [to_header (2, second)] ∧
  getTransactionHeaders (Some 2) (Some 1) two_headers_db
  = inr [to_header (1, first)] ∧
  getTransactionHeaders (Some 0) (Some 1) two_headers_db
  = inl OFFSET_must_not_be_negative.
Proof.
  cbv zeta.
  destruct (getTransactionHeaders_pages
              [(2, mkHeader "TXN-202312-002" 1701475200000 PENERIMAAN_DANA
                            "Second" 0 0 (Some 1) 1 false 1 1);
               (1, mkHeader "TXN-202312-001" 1701388800000 JURNAL_UMUM
                            "First" 0 0 None 1 false 0 0)]
              two_headers_db) as (Hpage & _ & Hzero).
  - apply (bool_decide_eq_true_1 (NoDup _)). vm_compute. reflexivity.
  - apply (bool_decide_eq_true_1 (_ ≡ₚ _)). vm_compute. reflexivity.
  - repeat constructor. simpl. lia.
  - split; [|split].
    + apply (Hpage 1 1); lia.
    + apply (Hpage 2 1); lia.
    + apply (Hzero 0 1); lia.
Defined.

Lemma elem_of_getUnpostedTransactions s t :
  t ∈ getUnpostedTransactions s
  ↔ ∃ id h, headers s !! id = Some h ∧ hdr_is_posted h = false ∧
            t = to_header (id, h).
Proof.
  unfold getUnpostedTransactions. rewrite elem_of_to_header.
  split; intros (id & h & Hh & Hp & ->); exists id, h; simpl in *;
    (split; [done|split; [|done]]).
  - now apply negb_true_iff.
  - now apply negb_true_iff.
Qed.

(** X9.  [getUnpostedTransactions] follows the posting. When [postTransaction]
    returns, the header is no longer listed and the list is otherwise the
    same; when [unpostTransaction] returns, the header it returned is listed,
    and the list is otherwise the same. *)
Theorem getUnpostedTransactions_follows_posting now id s :
  (∀ r, outcome (postTransaction now id) s = Returns r →
        ∀ t, t ∈ getUnpostedTransactions (after (postTransaction now id) s)
             ↔ t ∈ getUnpostedTransactions s ∧ th_id t ≠ id) ∧
  (∀ r, outcome (unpostTransaction now id) s = Returns r →
        ∀ t, t ∈ getUnpostedTransactions (after (unpostTransaction now id) s)
             ↔ t = to_header r ∨
               (t ∈ getUnpostedTransactions s ∧ th_id t ≠ id)).
Proof.
  split.
  - intros r. unfold outcome, after. rewrite postTransaction_run.
    destruct (balanced s id); [|done].
    destruct (headers s !! id) as [h|] eqn:Hh; [|done]. simpl. intros _ t.
    rewrite !elem_of_getUnpostedTransactions. simpl. split.
    + intros (id' & h' & Hh' & Hp & ->).
      destruct (decide (id' = id)) as [->|Hne].
      * rewrite lookup_insert_eq in Hh'. now injection Hh' as <-.
      * rewrite lookup_insert_ne in Hh' by done. split; [|done]. eauto.
    + intros [(id' & h' & Hh' & Hp & ->) Hne]. simpl in Hne.
      exists id', h'. now rewrite lookup_insert_ne.
  - intros r. unfold outcome, after. rewrite unpostTransaction_run.
    destruct (headers s !! id) as [h|] eqn:Hh; [|done]. simpl.
    intros [= <-] t. rewrite !elem_of_getUnpostedTransactions. simpl. split.
    + intros (id' & h' & Hh' & Hp & ->).
      destruct (decide (id' = id)) as [->|Hne].
      * rewrite lookup_insert_eq in Hh'. injection Hh' as <-. now left.
      * rewrite lookup_insert_ne in Hh' by done. right. split; [|done]. eauto.
    + intros [->|[(id' & h' & Hh' & Hp & ->) Hne]].
      * exists id, (set_posted now false h). now rewrite lookup_insert_eq.
      * simpl in Hne. exists id', h'. now rewrite lookup_insert_ne.
Qed.

Lemma getUnpostedTransactions_follows_posting_witness :
  let s1 :=
    perform 0
      (CreateCompleteTransaction
         (journal_input "TXN-202312-001" 500000000 500000000)) sample_db in
  let r :=
    (1, mkHeader "TXN-202312-001" 1701388800000 JURNAL_UMUM
                 "Test Transaction" 50000000 50000000 (Some 1) 1 true 0 1) in
  outcome (postTransaction 1 1) s1 = Returns r ∧
  ∀ t, t ∈ getUnpostedTransactions (after (postTransaction 1 1) s1)
       ↔ t ∈ getUnpostedTransactions s1 ∧ th_id t ≠ 1.
Proof.
  cbv zeta.
  assert (outcome (postTransaction 1 1)
            (perform 0
               (CreateCompleteTransaction
                  (journal_input "TXN-202312-001" 500000000 500000000))
               sample_db)
          = Returns
              (1, mkHeader "TXN-202312-001" 1701388800000 JURNAL_UMUM
                           "Test Transaction" 50000000 50000000 (Some 1) 1
                           true 0 1)) as Hr
    by (vm_compute; reflexivity).
  split; [exact Hr|].
  exact (proj1 (getUnpostedTransactions_follows_posting 1 1 _) _ Hr).
Defined.

Lemma sort_by_tanggal_desc l :
  StronglySorted (λ a b : Z * Header, hdr_tanggal b.2 ≤ hdr_tanggal a.2)
                 (sort by_tanggal_desc l).
Proof.
  apply sort_StronglySorted.
  - intros a b c. lia.
  - intros a b. lia.
  - intros a b. unfold by_tanggal_desc. lia.
Qed.

(** X10.  [getTransactionsByDateRange] lists the stored headers dated from
    [fromDate] to [toDate], both ends included, each once, the latest date
    first; the list is empty when [toDate] is before [fromDate]. *)
Theorem getTransactionsByDateRange_rows fromDate toDate s :
  let rows := getTransactionsByDateRange fromDate toDate s in
  (∀ t, t ∈ rows ↔
        ∃ id h, headers s !! id = Some h ∧
                fromDate ≤ hdr_tanggal h ≤ toDate ∧ t = to_header (id, h)) ∧
  NoDup (th_id <$> rows) ∧
  StronglySorted (λ a b, th_tanggal b ≤ th_tanggal a) rows ∧
  (toDate < fromDate → rows = []).
Proof.
  cbv zeta. unfold getTransactionsByDateRange.
  assert (∀ t,
            t ∈ to_header
                  <$> select_headers
                        (λ r, (fromDate <=? hdr_tanggal r.2)
                              && (hdr_tanggal r.2 <=? toDate))
                        by_tanggal_desc s
            ↔ ∃ id h, headers s !! id = Some h ∧
                      fromDate ≤ hdr_tanggal h ≤ toDate ∧
                      t = to_header (id, h)) as Hrows.
  { intros t. rewrite elem_of_to_header.
    split; intros (id & h & Hh & Hd & ->); exists id, h; simpl in *;
      (split; [done|split; [|done]]).
    - apply andb_true_iff in Hd as [?%Z.leb_le ?%Z.leb_le]. lia.
    - apply andb_true_iff. split; apply Z.leb_le; lia. }
  split; [exact Hrows|]. split; [|split].
  - rewrite fmap_th_id. apply NoDup_select_headers.
  - apply (StronglySorted_fmap _ (λ a b : Z * Header,
                                    hdr_tanggal b.2 ≤ hdr_tanggal a.2)).
    + now intros x y.
    + apply sort_by_tanggal_desc.
  - intros Hlt.
    destruct (to_header <$> select_headers _ _ s) as [|t rows] eqn:E;
      [done|].
    assert (t ∈ t :: rows) as Hin by now left.
    apply Hrows in Hin as (id & h & _ & Hd & _). lia.
Qed.

(** X11.  A stored header is listed by [getTransactionsByType] under its type
    and under no other, and by [getTransactionsByRelation] under its relation
    and under no other: a header without a relation is in no list by relation. *)
Theorem header_listed_by_type_and_relation id h s :
  headers s !! id = Some h →
  (∀ tipe, to_header (id, h) ∈ getTransactionsByType tipe s
           ↔ tipe = hdr_tipe h) ∧
  (∀ relationId, to_header (id, h) ∈ getTransactionsByRelation relationId s
                 ↔ hdr_relation_id h = Some relationId).
Proof.
  intros Hh.
  assert (∀ id' h', headers s !! id' = Some h' →
                    to_header (id, h) = to_header (id', h') → h' = h) as Hinj.
  { intros id' h' Hh' Heq.
    assert (id' = id) as -> by (now injection Heq). congruence. }
  split.
  - intros tipe. unfold getTransactionsByType. rewrite elem_of_to_header.
    split.
    + intros (id' & h' & Hh' & Ht & Heq). simpl in Ht.
      apply bool_decide_eq_true_1 in Ht.
      now rewrite (Hinj id' h' Hh' Heq) in Ht.
    + intros ->. exists id, h. split; [done|]. split; [|done].
      now apply bool_decide_eq_true_2.
  - intros relationId. unfold getTransactionsByRelation.
    rewrite elem_of_to_header. split.
    + intros (id' & h' & Hh' & Hr & Heq). simpl in Hr.
      apply bool_decide_eq_true_1 in Hr.
      now rewrite (Hinj id' h' Hh' Heq) in Hr.
    + intros Hr. exists id, h. split; [done|]. split; [|done].
      now apply bool_decide_eq_true_2.
Qed.

Lemma header_listed_by_type_and_relation_witness :
  let first :=
    mkHeader "TXN-202312-001" 1701388800000 JURNAL_UMUM "First" 0 0 None 1
             false 0 0 in
  to_header (1, first) ∈ getTransactionsByType JURNAL_UMUM two_headers_db ∧
  to_header (1, first) ∉ getTransactionsByRelation 1 two_headers_db.
Proof.
  cbv zeta.
  destruct (header_listed_by_type_and_relation
              1 (mkHeader "TXN-202312-001" 1701388800000 JURNAL_UMUM "First"
                          0 0 None 1 false 0 0) two_headers_db)
    as [Htype Hrelation].
  - vm_compute. reflexivity.
  - split.
    + now apply Htype.
    + intros Hin. apply Hrelation in Hin. discriminate.
Defined.

(** ** Handlers that write nothing when they throw *)



(** ** A key that is not stored *)



(** ** A generated number read back *)

Lemma parseInt_from (ds : list ascii) a :
  fold_left (λ n c, n * 10 + (Z.of_nat (nat_of_ascii c) - 48)) ds a
  = a * 10 ^ Z.of_nat (length ds) + parseInt ds.
Proof.
  unfold parseInt. revert a. induction ds as [|c ds IH]; intros a.
  - simpl. lia.
  - cbn [fold_left length]. rewrite IH, (IH (0 * 10 + _)).
    rewrite Nat2Z.inj_succ, Z.pow_succ_r by lia. lia.
Qed.

Lemma parseInt_app l1 l2 :
  parseInt (l1 ++ l2) = parseInt l1 * 10 ^ Z.of_nat (length l2) + parseInt l2.
Proof.
  unfold parseInt at 1. rewrite fold_left_app. fold (parseInt l1).
  apply parseInt_from.
Qed.

Lemma parseInt_zeros k : parseInt (replicate k "0"%char) = 0.
Proof.
  induction k as [|k IH]; [done|].
  change (replicate (S k) "0"%char) with (["0"%char] ++ replicate k "0"%char).
  rewrite parseInt_app, IH. reflexivity.
Qed.

Lemma pretty_N_char_digit x :
  (x < 10)%N →
  is_digit (pretty_N_char x) = true ∧
  Z.of_nat (nat_of_ascii (pretty_N_char x)) - 48 = Z.of_N x.
Proof.
  intros Hx.
  assert (x = 0 ∨ x = 1 ∨ x = 2 ∨ x = 3 ∨ x = 4 ∨ x = 5 ∨ x = 6 ∨ x = 7
          ∨ x = 8 ∨ x = 9)%N as Hcases by lia.
  repeat (destruct Hcases as [->|Hcases]; [now split|]). subst. now split.
Qed.

(** The digits [toString] writes stand for the number. *)
Lemma pretty_N_go_digits x s :
  Forall (λ c, is_digit c = true) (list_ascii_of_string s) →
  Forall (λ c, is_digit c = true) (list_ascii_of_string (pretty_N_go x s)) ∧
  parseInt (list_ascii_of_string (pretty_N_go x s))
  = Z.of_N x * 10 ^ Z.of_nat (String.length s)
    + parseInt (list_ascii_of_string s).
Proof.
  revert s. induction (N.lt_wf_0 x) as [x _ IH]; intros s Hs.
  assert (x = 0 ∨ 0 < x)%N as [->|Hpos] by lia.
  - rewrite pretty_N_go_0. split; [done|]. simpl. lia.
  - rewrite pretty_N_go_step by done.
    destruct (pretty_N_char_digit (x `mod` 10)) as [Hdigit Hvalue].
    { now apply N.mod_lt. }
    destruct (IH (x `div` 10)%N
                 (N.div_lt x 10 Hpos eq_refl)
                 (String (pretty_N_char (x `mod` 10)) s)) as [Hall Hparse].
    { simpl. now constructor. }
    split; [exact Hall|]. rewrite Hparse. simpl String.length.
    simpl list_ascii_of_string.
    change (pretty_N_char (x `mod` 10) :: list_ascii_of_string s)
      with ([pretty_N_char (x `mod` 10)] ++ list_ascii_of_string s).
    rewrite parseInt_app.
    assert (length (list_ascii_of_string s) = String.length s) as ->.
    { clear. induction s as [|c s IH]; simpl; [done|]. now rewrite IH. }
    change (parseInt [pretty_N_char (x `mod` 10)])
      with (0 * 10 + (Z.of_nat (nat_of_ascii (pretty_N_char (x `mod` 10)))
                      - 48)).
    rewrite Hvalue, Nat2Z.inj_succ, Z.pow_succ_r by lia.
    pose proof (N.div_mod x 10) as Hdm.
    rewrite N2Z.inj_div, N2Z.inj_mod. change (Z.of_N 10) with 10.
    pose proof (Z.div_mod (Z.of_N x) 10). lia.
Qed.

Lemma toString_digits n :
  0 ≤ n →
  Forall (λ c, is_digit c = true) (list_ascii_of_string (toString n)) ∧
  parseInt (list_ascii_of_string (toString n)) = n.
Proof.
  intros Hn. unfold toString, pretty, pretty_Z.
  destruct n as [|p|p]; [split; [repeat constructor|reflexivity]|..|lia].
  unfold pretty, pretty_positive, pretty, pretty_N.
  destruct (decide (N.pos p = 0%N)) as [|_]; [done|].
  destruct (pretty_N_go_digits (N.pos p) "") as [Hall Hparse]; [done|].
  split; [exact Hall|]. rewrite Hparse.
  change (Z.of_N (N.pos p) * 10 ^ 0 + 0 = Z.pos p).
  rewrite Z.pow_0_r. change (Z.of_N (N.pos p)) with (Z.pos p). lia.
Qed.

Lemma list_ascii_of_string_app (s1 s2 : string) :
  list_ascii_of_string (s1 +:+ s2)
  = list_ascii_of_string s1 ++ list_ascii_of_string s2.
Proof. induction s1 as [|c s1 IH]; simpl; [done|]. now rewrite IH. Qed.

Lemma span_digits_run ds c rest :
  Forall (λ c, is_digit c = true) ds →
  is_digit c = false →
  span_digits (ds ++ c :: rest) = (ds, c :: rest).
Proof.
  intros Hds Hc. induction Hds as [|d ds Hd Hds IH]; simpl.
  - now rewrite Hc.
  - now rewrite Hd, IH.
Qed.

(** A text that ends in a hyphen and digits is read as the number of the
    digits. *)
Lemma match_sequence_digits (before digits : string) :
  Forall (λ c, is_digit c = true) (list_ascii_of_string digits) →
  digits ≠ "" →
  match_sequence (before +:+ "-" +:+ digits)
  = Some (parseInt (list_ascii_of_string digits)).
Proof.
  intros Hds Hne. unfold match_sequence.
  rewrite !list_ascii_of_string_app. simpl list_ascii_of_string at 2.
  rewrite rev_app_distr. simpl rev at 1. rewrite <- app_assoc. simpl app at 2.
  rewrite span_digits_run; [| |done].
  - destruct (rev (list_ascii_of_string digits)) as [|d ds] eqn:E.
    + exfalso. apply Hne. apply (f_equal (@rev ascii)) in E.
      rewrite rev_involutive in E. simpl in E.
      destruct digits; [done|discriminate].
    + rewrite <- E. now rewrite rev_involutive.
  - now apply List.Forall_rev.
Qed.

Lemma padStart_digits n (s : string) :
  Forall (λ c, is_digit c = true) (list_ascii_of_string s) →
  Forall (λ c, is_digit c = true)
         (list_ascii_of_string (padStart n "0" s)) ∧
  parseInt (list_ascii_of_string (padStart n "0" s))
  = parseInt (list_ascii_of_string s).
Proof.
  intros Hs. unfold padStart.
  change (String.app ?a ?b) with (a +:+ b).
  rewrite list_ascii_of_string_app, list_ascii_of_string_of_list_ascii.
  split.
  - apply Forall_app. split; [|done]. now apply Forall_replicate.
  - rewrite parseInt_app, parseInt_zeros. lia.
Qed.

(** X14.  The number [generateTransactionNumber] returns reads back as the
    sequence number it was made of, the successor of the largest one of the
    type and month, and no stored header of the type and month has it as its
    [nomor_transaksi]. *)
Theorem generateTransactionNumber_reads_back
    getFullYear getMonth tipe tanggal s :
  safe_sequences s →
  ∃ nomor m,
    outcome (generateTransactionNumber getFullYear getMonth tipe tanggal) s
    = Returns nomor ∧
    largest_sequence getFullYear getMonth s tipe tanggal m ∧
    match_sequence nomor = Some (m + 1) ∧
    m + 1 < 2 ^ 53 ∧
    (∀ id h,
       headers s !! id = Some h →
       in_month_of getFullYear getMonth tipe tanggal h →
       hdr_nomor_transaksi h ≠ nomor).
Proof.
  intros Hsafe.
  pose proof (fold_max_sequence
                (sameMonthTransactions getFullYear getMonth s tipe tanggal) 0)
    as Hfold.
  cbv zeta in Hfold. destruct Hfold as (Hle & Hub & Hmax).
  set (m := fold_left _ _ 0) in *.
  assert (largest_sequence getFullYear getMonth s tipe tanggal m) as Hlargest.
  { split.
    - intros id h n Hh Hin Hn. apply (Hub (id, h)); [|done].
      now apply elem_of_sameMonthTransactions.
    - destruct Hmax as [Hmax|([id h] & Ht & Hn)]; [now left|].
      right. exists id, h.
      apply elem_of_sameMonthTransactions in Ht as [Hh Hin]. done. }
  destruct (toString_digits (m + 1)) as [Hdigits Hparse]; [lia|].
  destruct (padStart_digits 3 (toString (m + 1)) Hdigits) as [Hall Hpad].
  assert (match_sequence
            ((tipe_name tipe +:+ "-" +:+ toString (getFullYear tanggal)
              +:+ padStart 2 "0" (toString (getMonth tanggal + 1)))
             +:+ "-" +:+ padStart 3 "0" (toString (m + 1)))
          = Some (m + 1)) as Hread.
  { rewrite match_sequence_digits; [now rewrite Hpad, Hparse|done|].
    intros Hempty. pose proof (length_padStart 3 "0" (toString (m + 1))) as Hl.
    rewrite Hempty in Hl. simpl in Hl. lia. }
  eexists _, m. split; [reflexivity|]. split; [exact Hlargest|].
  split; [exact Hread|]. split.
  - destruct Hmax as [->|([id h] & Ht & Hn)]; [lia|].
    apply elem_of_sameMonthTransactions in Ht as [Hh _].
    specialize (Hsafe id h Hh). unfold safe_sequence in Hsafe. simpl in Hn.
    now rewrite Hn in Hsafe.
  - intros id h Hh Hin Heq. destruct Hlargest as [Hupper _].
    specialize (Hupper id h (m + 1) Hh Hin). rewrite Heq in Hupper.
    specialize (Hupper Hread). lia.
Qed.

Lemma generateTransactionNumber_reads_back_witness :
  let s1 :=
    perform 0
      (CreateCompleteTransaction
         (journal_input "JURNAL_UMUM-202312-001" 500000000 500000000))
      sample_db in
  ∃ nomor m,
    outcome (generateTransactionNumber utc_getFullYear utc_getMonth
               JURNAL_UMUM 1702598400000) s1
    = Returns nomor ∧
    match_sequence nomor = Some (m + 1).
Proof.
  cbv zeta.
  destruct (generateTransactionNumber_reads_back
              utc_getFullYear utc_getMonth JURNAL_UMUM 1702598400000
              (perform 0
                 (CreateCompleteTransaction
                    (journal_input "JURNAL_UMUM-202312-001"
                                   500000000 500000000))
                 sample_db))
    as (nomor & m & Hout & _ & Hread & _).
  - apply (bool_decide_eq_true_1 (safe_sequences _)). vm_compute. reflexivity.
  - exists nomor, m. split; [exact Hout|exact Hread].
Defined.

(** ** The inventory *)

Section inventory.

Import Inventory.
Local Open Scope inventory_scope.

Ltac run_inventory :=
  unfold outcome, after, throw_if, bind, get, put, ret, throw; simpl.

Lemma inventory_after_bind {A B} (P : store → Prop) (m : M A) (k : A → M B) s :
  P (after m s) → (∀ a, preserves P (k a)) → P (after (bind m k) s).
Proof.
  unfold after, bind. intros Hm Hk.
  destruct (m s) as [[a|e] s'] eqn:E; simpl in *; [|done].
  now apply Hk.
Qed.

Lemma inventory_preserves_bind {A B} P (m : M A) (k : A → M B) :
  preserves P m → (∀ a, preserves P (k a)) → preserves P (bind m k).
Proof. intros Hm Hk s Hs. apply inventory_after_bind; [now apply Hm|done]. Qed.

Lemma inventory_preserves_ret {A} P (a : A) : preserves P (ret a).
Proof. now intros s. Qed.

Lemma inventory_preserves_throw {A} P e : preserves P (throw (A := A) e).
Proof. now intros s. Qed.

Lemma inventory_preserves_throw_if P c e : preserves P (throw_if c e).
Proof. intros s. now destruct c. Qed.

Lemma inventory_preserves_get_bind {B} P (k : store → M B) :
  (∀ s, P s → P (after (k s) s)) → preserves P (bind get k).
Proof. intros Hk s Hs. now apply Hk. Qed.

Lemma preserves_integer_values P values :
  preserves P (integer_values values).
Proof. apply inventory_preserves_throw_if. Qed.

Lemma preserves_numeric_values P values :
  preserves P (numeric_values values).
Proof. apply inventory_preserves_throw_if. Qed.

(** Reading a group. *)
Lemma select_group_run id s :
  select_group id s
  = if int4 id
    then (Returns match groups s !! id with
                  | Some g => [(id, g)]
                  | None => []
                  end, s)
    else (Throws Integer_out_of_range, s).
Proof.
  unfold select_group, integer_values. run_inventory.
  rewrite andb_true_r. now destruct (int4 id).
Qed.

Lemma getInventoryGroupById_run id s :
  getInventoryGroupById id s
  = if int4 id
    then (Returns match groups s !! id with
                  | Some g => Some (id, g)
                  | None => None
                  end, s)
    else (Throws Integer_out_of_range, s).
Proof.
  unfold getInventoryGroupById, bind. rewrite select_group_run.
  destruct (int4 id); [|done]. now destruct (groups s !! id).
Qed.

(** *** Items and their groups *)

Lemma groups_kept_insert_group row :
  preserves items_have_groups (insert_group row).
Proof.
  intros s Hs. unfold insert_group. run_inventory.
  destruct (group_kode_in_use s _); simpl; [done|].
  intros k i Hk. simpl. apply lookup_insert_is_Some'. right. exact (Hs k i Hk).
Qed.

Lemma groups_kept_update_group id f :
  preserves items_have_groups (update_group id f).
Proof.
  unfold update_group.
  apply inventory_preserves_bind; [apply preserves_integer_values|intros _].
  apply inventory_preserves_get_bind. intros s Hs.
  destruct (groups s !! id) as [g|] eqn:E; [|done]. run_inventory.
  destruct (_ && _); simpl; [done|].
  intros k i Hk. simpl. apply lookup_insert_is_Some'. right. exact (Hs k i Hk).
Qed.

(** A group is deleted only when no item is in it. *)
Lemma groups_kept_deleteInventoryGroup id :
  preserves items_have_groups (deleteInventoryGroup id).
Proof.
  intros s Hs. unfold deleteInventoryGroup, count_items_of, delete_group.
  unfold integer_values. run_inventory. rewrite andb_true_r.
  destruct (int4 id); simpl; [|done].
  destruct (0 <? _) eqn:Ecount; simpl; [done|].
  destruct (groups s !! id) as [g|]; simpl; [|done].
  apply Z.ltb_ge in Ecount.
  assert (filter (λ r : Z * Item, itm_kelompok_id r.2 = id) (items s) = ∅)
    as Hnone.
  { apply map_size_empty_iff. lia. }
  intros k i Hk. simpl.
  rewrite lookup_delete_ne; [exact (Hs k i Hk)|].
  intros Heq.
  assert (filter (λ r : Z * Item, itm_kelompok_id r.2 = id) (items s) !! k
          = Some i) as Hin by now apply map_lookup_filter_Some.
  now rewrite Hnone in Hin.
Qed.

Lemma groups_kept_createInventory now input :
  preserves items_have_groups (createInventory now input).
Proof.
  intros s Hs. unfold after, createInventory, bind at 1.
  rewrite getInventoryGroupById_run.
  destruct (int4 (new_kelompok_id input)); [|done].
  destruct (groups s !! new_kelompok_id input) as [g|] eqn:Hg; [|done].
  unfold insert_item, integer_values, numeric_values. run_inventory.
  destruct (negb _); simpl; [done|].
  destruct (negb _); simpl; [done|].
  destruct (item_kode_in_use s _); simpl; [done|].
  apply map_Forall_insert_2; [|done]. simpl. eauto.
Qed.

Lemma update_item_steps id integers numerics f s :
  update_item id integers numerics f s
  = if negb (forallb int4 (integers ++ [id]))
    then (Throws Integer_out_of_range, s)
    else if negb (forallb Amount.fits numerics)
    then (Throws Numeric_field_overflow, s)
    else match items s !! id with
         | None => (Returns [], s)
         | Some i =>
             if negb (String.eqb (itm_kode (f i)) (itm_kode i))
                && item_kode_in_use s (itm_kode (f i))
             then (Throws Unique_violation_kode, s)
             else (Returns [(id, f i)],
                   mkStore (groups s) (<[id := f i]> (items s))
                           (next_group_id s) (next_item_id s))
         end.
Proof.
  unfold update_item, integer_values, numeric_values.
  unfold bind at 1, throw_if at 1.
  destruct (negb (forallb int4 _)); [done|]. unfold ret at 1.
  unfold bind at 1, throw_if at 1.
  destruct (negb (forallb Amount.fits _)); [done|]. unfold ret at 1.
  unfold bind at 1, get at 1.
  destruct (items s !! id) as [i|]; [|done].
  unfold bind at 1, throw_if at 1. now destruct (_ && _).
Qed.

Lemma groups_kept_update_item id integers numerics f s :
  (∀ i, items s !! id = Some i →
        is_Some (groups s !! itm_kelompok_id (f i))) →
  items_have_groups s →
  items_have_groups (after (update_item id integers numerics f) s).
Proof.
  intros Hf Hs. unfold after. rewrite update_item_steps.
  destruct (negb (forallb int4 _)); [done|].
  destruct (negb (forallb Amount.fits _)); [done|].
  destruct (items s !! id) as [i|] eqn:E; [|done].
  destruct (_ && _); [done|]. simpl.
  apply map_Forall_insert_2; [|done]. simpl. now apply Hf.
Qed.

Lemma groups_kept_updateInventory now id input :
  preserves items_have_groups (updateInventory now id input).
Proof.
  intros s Hs. unfold updateInventory.
  assert ((∀ i, items s !! id = Some i →
                is_Some (groups s !! itm_kelompok_id (set_item now input i))) →
          items_have_groups
            (after
               (do results <-
                  update_item id
                    (option_list (set_kelompok_id input)
                     ++ option_list (set_stok input)
                     ++ option_list (set_min_stok input))
                    (option_list (set_harga_beli input)
                     ++ option_list (set_harga_jual input))
                    (set_item now input);
                match results with
                | [] => throw (Inventory_item_with_ID_not_found id)
                | item :: _ => ret (to_inventory item)
                end) s)) as Hupd.
  { intros Hf. apply inventory_after_bind.
    - now apply groups_kept_update_item.
    - intros [|item ?];
        [apply inventory_preserves_throw|apply inventory_preserves_ret]. }
  destruct (set_kelompok_id input) as [k|] eqn:Hk.
  - unfold after, bind at 1, bind at 1. rewrite getInventoryGroupById_run.
    destruct (int4 k); [|done].
    destruct (groups s !! k) as [g|] eqn:Hg; [|done]. simpl.
    apply Hupd. intros i Hi. unfold set_item. simpl. rewrite Hk. simpl. eauto.
  - unfold after, bind at 1, ret at 1.
    apply Hupd. intros i Hi. unfold set_item. simpl. rewrite Hk. simpl.
    exact (Hs id i Hi).
Qed.

Lemma groups_kept_updateInventoryStock now id quantity :
  preserves items_have_groups (updateInventoryStock now id quantity).
Proof.
  intros s Hs. unfold updateInventoryStock. apply inventory_after_bind.
  - apply groups_kept_update_item; [|done]. intros i Hi. simpl.
    exact (Hs id i Hi).
  - intros [|item ?];
      [apply inventory_preserves_throw|apply inventory_preserves_ret].
Qed.

Lemma groups_kept_deleteInventory id :
  preserves items_have_groups (deleteInventory id).
Proof.
  intros s Hs. unfold deleteInventory, delete_item, integer_values.
  run_inventory. rewrite andb_true_r.
  destruct (int4 id); simpl; [|done].
  destruct (items s !! id) as [i|]; simpl; [|done].
  now apply map_Forall_delete.
Qed.

(** X15.  Every inventory operation keeps the items in stored groups, also
    when it throws: the schema declares no foreign key, and the handlers alone
    keep an item from losing its group. *)
Theorem items_keep_their_groups ops s :
  items_have_groups s → items_have_groups (Inventory.perform_all ops s).
Proof.
  revert s. induction ops as [|[now op] ops IH]; intros s Hs; [done|].
  simpl. apply IH. destruct op; simpl.
  - now apply groups_kept_insert_group.
  - unfold updateInventoryGroup. apply inventory_after_bind.
    + now apply groups_kept_update_group.
    + intros [|g ?];
        [apply inventory_preserves_throw|apply inventory_preserves_ret].
  - now apply groups_kept_deleteInventoryGroup.
  - now apply groups_kept_createInventory.
  - now apply groups_kept_updateInventory.
  - now apply groups_kept_updateInventoryStock.
  - now apply groups_kept_deleteInventory.
Qed.

Lemma items_keep_their_groups_witness :
  items_have_groups
    (Inventory.perform_all
       [(1, DeleteInventoryGroup 1);
        (2, CreateInventoryGroup (mkGroupInput "GRP002" "Second Group" None));
        (3, UpdateInventory
              1 (mkPartialInventory None None (Some 2) None None None None
                                    None None));
        (4, DeleteInventoryGroup 1)]
       sample_store).
Proof.
  apply items_keep_their_groups.
  apply (bool_decide_eq_true_1 (items_have_groups _)).
  vm_compute. reflexivity.
Defined.

(** *** Deleting a group *)

(** X16.  [deleteInventoryGroup] refuses a group that has items: it throws and
    the store stays as it was. Of a group without items it returns whether the
    group was stored; a stored group is removed, can no longer be read, and no
    item changes. *)
Theorem deleteInventoryGroup_refuses_group_with_items id s :
  int4 id = true →
  let s' := after (deleteInventoryGroup id) s in
  ((∃ k i, items s !! k = Some i ∧ itm_kelompok_id i = id) →
   outcome (deleteInventoryGroup id) s
   = Throws Cannot_delete_inventory_group_it_has_inventory_items ∧
   s' = s) ∧
  ((∀ k i, items s !! k = Some i → itm_kelompok_id i ≠ id) →
   match groups s !! id with
   | None => outcome (deleteInventoryGroup id) s = Returns false ∧ s' = s
   | Some g =>
       outcome (deleteInventoryGroup id) s = Returns true ∧
       groups s' = delete id (groups s) ∧
       items s' = items s ∧
       outcome (getInventoryGroupById id) s' = Returns None
   end).
Proof.
  intros Hid. cbv zeta.
  unfold outcome, after, deleteInventoryGroup, count_items_of, delete_group.
  unfold integer_values. run_inventory. rewrite Hid. simpl. split.
  - intros (k & i & Hk & Hi).
    assert (size (filter (λ r : Z * Item, itm_kelompok_id r.2 = id) (items s))
            ≠ 0%nat) as Hsize.
    { intros Hz. apply map_size_empty_iff in Hz.
      assert (filter (λ r : Z * Item, itm_kelompok_id r.2 = id) (items s) !! k
              = Some i) as Hin by now apply map_lookup_filter_Some.
      now rewrite Hz in Hin. }
    destruct (0 <? _) eqn:E; [done|]. apply Z.ltb_ge in E. lia.
  - intros Hnone.
    rewrite (map_empty_filter_2 _ (items s)).
    + rewrite map_size_empty. simpl.
      destruct (groups s !! id) as [g|] eqn:Hg; simpl; [|done].
      split; [done|]. split; [done|]. split; [done|].
      fold (outcome (getInventoryGroupById id)
                    (mkStore (delete id (groups s)) (items s)
                             (next_group_id s) (next_item_id s))).
      unfold outcome. rewrite getInventoryGroupById_run, Hid. simpl.
      now rewrite lookup_delete_eq.
    + intros k i Hk. simpl. exact (Hnone k i Hk).
Qed.

Lemma deleteInventoryGroup_refuses_group_with_items_witness :
  outcome (deleteInventoryGroup 1) sample_store
  = Throws Cannot_delete_inventory_group_it_has_inventory_items ∧
  after (deleteInventoryGroup 1) sample_store = sample_store.
Proof.
  refine (proj1 (deleteInventoryGroup_refuses_group_with_items
                   1 sample_store _) _).
  - reflexivity.
  - exists 1, (mkItem "ITM001" "Test Item" 1 "pcs" 1000000 1500000 50 10
                        true 0 0).
    split; [|reflexivity]. vm_compute. reflexivity.
Defined.

(** *** Creating and reading an item *)

Lemma getInventoryById_run id s :
  getInventoryById id s
  = if int4 id
    then (Returns ((λ i, to_inventory (id, i)) <$> items s !! id), s)
    else (Throws Integer_out_of_range, s).
Proof.
  unfold getInventoryById, select_item, integer_values. run_inventory.
  rewrite andb_true_r. destruct (int4 id); simpl; [|done].
  now destruct (items s !! id).
Qed.

(** [createInventory] step by step. *)
Lemma createInventory_steps now input s :
  createInventory now input s
  = if negb (int4 (new_kelompok_id input))
    then (Throws Integer_out_of_range, s)
    else match groups s !! new_kelompok_id input with
    | None =>
        (Throws (Inventory_group_with_ID_does_not_exist
                   (new_kelompok_id input)), s)
    | Some _ =>
        if negb (forallb int4 [new_kelompok_id input; new_stok input;
                               new_min_stok input])
        then (Throws Integer_out_of_range, s)
        else if negb (forallb Amount.fits
                              [new_harga_beli input; new_harga_jual input])
        then (Throws Numeric_field_overflow, s)
        else if item_kode_in_use s (new_kode input)
        then (Throws Unique_violation_kode, s)
        else
          let row :=
            mkItem (new_kode input) (new_nama input) (new_kelompok_id input)
                   (new_satuan input)
                   (Amount.to_numeric (new_harga_beli input))
                   (Amount.to_numeric (new_harga_jual input))
                   (new_stok input) (new_min_stok input)
                   (new_is_active input) now now in
          (Returns (to_inventory (next_item_id s, row)),
           mkStore (groups s) (<[next_item_id s := row]> (items s))
                   (next_group_id s) (next_item_id s + 1))
    end.
Proof.
  unfold createInventory, bind at 1. rewrite getInventoryGroupById_run.
  destruct (int4 (new_kelompok_id input)) eqn:Hk; [|reflexivity].
  change (negb true) with false. cbv iota.
  destruct (groups s !! new_kelompok_id input) as [g|]; [|reflexivity].
  cbv iota beta.
  unfold insert_item, integer_values, numeric_values, throw_if.
  destruct (negb (forallb int4 _)); [reflexivity|].
  destruct (negb (forallb Amount.fits _)); [reflexivity|].
  unfold bind, get, ret. now destruct (item_kode_in_use s _).
Qed.



(** *** The stock of an item *)

Lemma elem_of_getLowStockInventory s t :
  ∃ l, outcome getLowStockInventory s = Returns l ∧
       (t ∈ l ↔ ∃ k i, items s !! k = Some i ∧
                       itm_stok i ≤ itm_min_stok i ∧ t = to_inventory (k, i)).
Proof.
  eexists. split; [reflexivity|]. simpl.
  rewrite list_elem_of_fmap. split.
  - intros ([k i] & -> & Hin). apply list_elem_of_filter in Hin as [Hlow Hin].
    apply elem_of_map_to_list in Hin. simpl in Hlow.
    apply Z.leb_le in Hlow. eauto.
  - intros (k & i & Hk & Hlow & ->). exists (k, i). split; [done|].
    apply list_elem_of_filter. split.
    + simpl. now apply Z.leb_le.
    + now apply elem_of_map_to_list.
Qed.

Lemma updateInventoryStock_run now id quantity s :
  updateInventoryStock now id quantity s
  = if negb (int4 quantity && int4 id)
    then (Throws Integer_out_of_range, s)
    else match items s !! id with
         | None => (Throws (Inventory_item_with_ID_not_found id), s)
         | Some i =>
             (Returns (to_inventory (id, with_stok now quantity i)),
              mkStore (groups s) (<[id := with_stok now quantity i]> (items s))
                      (next_group_id s) (next_item_id s))
         end.
Proof.
  unfold updateInventoryStock, bind. rewrite update_item_steps.
  change (forallb int4 ([quantity] ++ [id]))
    with (int4 quantity && (int4 id && true)).
  rewrite andb_true_r. destruct (negb _); [reflexivity|].
  change (negb (forallb Amount.fits [])) with false. cbv iota.
  destruct (items s !! id) as [i|]; [|reflexivity].
  change (itm_kode _) with (itm_kode i). rewrite String.eqb_refl.
  reflexivity.
Qed.

(** X18.  [updateInventoryStock] puts the stock of an item to the quantity it
    is given, whatever its sign, and changes nothing else but [updated_at]; on
    a key that is not stored it throws and the store stays as it was. After it
    the item is in the list of [getLowStockInventory] if and only if the
    quantity is not above [min_stok]. *)
Theorem updateInventoryStock_sets_stok now id quantity s :
  int4 id = true →
  int4 quantity = true →
  let s' := after (updateInventoryStock now id quantity) s in
  match items s !! id with
  | None =>
      outcome (updateInventoryStock now id quantity) s
      = Throws (Inventory_item_with_ID_not_found id) ∧
      s' = s
  | Some i =>
      let item := to_inventory (id, with_stok now quantity i) in
      outcome (updateInventoryStock now id quantity) s = Returns item ∧
      items s' = <[id := with_stok now quantity i]> (items s) ∧
      groups s' = groups s ∧
      ∃ l, outcome getLowStockInventory s' = Returns l ∧
           (item ∈ l ↔ quantity ≤ itm_min_stok i)
  end.
Proof.
  intros Hid Hq. cbv zeta. unfold after.
  destruct (items s !! id) as [i|] eqn:Hi.
  2:{ unfold outcome. now rewrite updateInventoryStock_run, Hid, Hq, Hi. }
  unfold outcome at 1.
  rewrite updateInventoryStock_run, Hid, Hq, Hi. simpl.
  split; [reflexivity|]. split; [reflexivity|]. split; [reflexivity|].
  match goal with |- ∃ l, outcome _ ?s' = _ ∧ (?t ∈ l ↔ _) =>
    destruct (elem_of_getLowStockInventory s' t) as (l & Hl & Hin) end.
  exists l. split; [exact Hl|]. rewrite Hin. simpl. split.
  - intros (k & i' & Hk & Hlow & Heq).
    assert (k = id) as -> by (now injection Heq).
    rewrite lookup_insert_eq in Hk. injection Hk as <-. exact Hlow.
  - intros Hlow. exists id, (with_stok now quantity i).
    now rewrite lookup_insert_eq.
Qed.

Lemma updateInventoryStock_sets_stok_witness :
  outcome (updateInventoryStock 1 1 (-5)) sample_store
  = Returns
      (to_inventory
         (1, mkItem "ITM001" "Test Item" 1 "pcs" 1000000 1500000 (-5) 10
                    true 0 1)).
Proof.
  pose proof (updateInventoryStock_sets_stok 1 1 (-5) sample_store
                eq_refl eq_refl) as H.
  cbv zeta in H.
  change (items sample_store !! 1)
    with (Some (mkItem "ITM001" "Test Item" 1 "pcs" 1000000 1500000 50 10
                       true 0 0)) in H.
  exact (proj1 H).
Defined.

(** *** Nothing is written when a handler throws *)

Lemma insert_group_throws row s e :
  outcome (insert_group row) s = Throws e → after (insert_group row) s = s.
Proof.
  unfold insert_group. run_inventory.
  now destruct (group_kode_in_use s _).
Qed.

Lemma update_group_steps id f s :
  update_group id f s
  = if negb (int4 id)
    then (Throws Integer_out_of_range, s)
    else match groups s !! id with
         | None => (Returns [], s)
         | Some g =>
             if negb (String.eqb (grp_kode (f g)) (grp_kode g))
                && group_kode_in_use s (grp_kode (f g))
             then (Throws Unique_violation_kode, s)
             else (Returns [(id, f g)],
                   mkStore (<[id := f g]> (groups s)) (items s)
                           (next_group_id s) (next_item_id s))
         end.
Proof.
  unfold update_group, integer_values. run_inventory. rewrite andb_true_r.
  destruct (int4 id); simpl; [|done].
  destruct (groups s !! id) as [g|]; [|done]. now destruct (_ && _).
Qed.


(** *** What was created is listed *)

(** X20.  A group that [createInventoryGroup] returned is in the list of
    [getInventoryGroups] and is what [getInventoryGroupById] gives for its
    key; an item that [createInventory] returned is in the list of
    [getInventory], and in the list of [getInventoryByGroup] of its group and
    of no other group. *)
Theorem created_rows_are_listed now s :
  (∀ input g,
     int4 (next_group_id s) = true →
     outcome (createInventoryGroup now input) s = Returns g →
     let s' := after (createInventoryGroup now input) s in
     outcome (getInventoryGroupById g.1) s' = Returns (Some g) ∧
     ∃ l, outcome getInventoryGroups s' = Returns l ∧ g ∈ l) ∧
  (∀ input item,
     outcome (createInventory now input) s = Returns item →
     let s' := after (createInventory now input) s in
     (∃ l, outcome getInventory s' = Returns l ∧ item ∈ l) ∧
     ∀ kelompokId,
       int4 kelompokId = true →
       ∃ l, outcome (getInventoryByGroup kelompokId) s' = Returns l ∧
            (item ∈ l ↔ kelompokId = inv_kelompok_id item)).
Proof.
  split.
  - intros input g Hkey. unfold outcome, after, createInventoryGroup.
    unfold insert_group. run_inventory.
    destruct (group_kode_in_use s _); simpl; [done|]. intros [= <-]. simpl.
    unfold getInventoryGroupById, select_group, integer_values.
    run_inventory. rewrite Hkey. simpl. rewrite lookup_insert_eq. simpl.
    split; [done|]. eexists. split; [reflexivity|].
    apply elem_of_map_to_list. apply lookup_insert_eq.
  - intros input item. unfold outcome at 1, after.
    rewrite createInventory_steps.
    destruct (negb (int4 _)); [done|].
    destruct (groups s !! new_kelompok_id input) as [g|] eqn:Hg; [|done].
    destruct (negb (forallb int4 _)); [done|].
    destruct (negb (forallb Amount.fits _)); [done|].
    destruct (item_kode_in_use s _); [done|]. cbv zeta. simpl.
    intros [= <-]. split.
    + eexists. split; [reflexivity|]. simpl.
      apply list_elem_of_fmap. eexists (_, _). split; [reflexivity|].
      rewrite filter_all. apply elem_of_map_to_list. apply lookup_insert_eq.
    + intros kelompokId Hk.
      unfold getInventoryByGroup, select_items, integer_values.
      run_inventory. rewrite Hk. simpl. eexists. split; [reflexivity|].
      rewrite list_elem_of_fmap. split.
      * intros ([k i] & Heq & Hin).
        apply list_elem_of_filter in Hin as [Hgroup Hin].
        apply bool_decide_eq_true_1 in Hgroup. simpl in Hgroup.
        rewrite <- Hgroup. now injection Heq as _ _ _ <-.
      * intros ->. eexists (_, _). split; [reflexivity|].
        apply list_elem_of_filter. split.
        -- now apply bool_decide_eq_true_2.
        -- apply elem_of_map_to_list. apply lookup_insert_eq.
Qed.

Lemma created_rows_are_listed_witness :
  let input := mkGroupInput "GRP002" "Second Group" None in
  outcome (getInventoryGroupById 2)
          (after (createInventoryGroup 1 input) sample_store)
  = Returns (Some (2, mkGroup "GRP002" "Second Group" None 1 1)).
Proof.
  cbv zeta.
  refine (proj1 (proj1 (created_rows_are_listed 1 sample_store)
                       (mkGroupInput "GRP002" "Second Group" None)
                       (2, mkGroup "GRP002" "Second Group" None 1 1) _ _)).
  - reflexivity.
  - vm_compute. reflexivity.
Defined.

End inventory.
